(** * Zomato dashboard: the table pipeline of [code.py]

    [code.py] is a script: it loads a CSV into a pandas DataFrame, cleans the
    frame in place, restricts it to the selected cities, and derives four
    metrics and a handful of chart inputs from it.  This development embeds
    the frame as an ordered list of rows under a list of column names, the
    pandas calls the script makes as functions on frames, Python exceptions as
    an error result, and the object the variable [df] names as a location in
    an object store (the cleaning calls pass [inplace=True]).

    Numbers are exact rationals ([Qc]); float rounding error is not modelled.
    NaN and None are the one missing value [NA]. *)

From Stdlib Require Import Ascii QArith Qcanon Qround.
From stdpp Require Import base option list strings gmap sorting.

Local Open Scope string_scope.
Local Open Scope list_scope.
Local Open Scope nat_scope.

(** ** Cells, rows, frames

    A number cell is a finite number: the infinities a CSV file may spell
    out are not cells here, and since arithmetic is exact no sum overflows.
    The labels of a frame are meant to be distinct ([NoDup (columns df)]):
    under a repeated label pandas hands back a frame where the script
    expects a Series, and the statements below that say which exception a
    run ends in assume distinct labels. *)

Inductive cell : Type :=
  | Num (q : Qc)
  | Str (s : string)
  | NA.

#[global] Instance cell_eq_dec : EqDecision cell.
Proof. solve_decision. Defined.

Definition isna (c : cell) : bool :=
  match c with NA => true | _ => false end.

Definition notna (c : cell) : bool := negb (isna c).

Definition row : Type := list cell.

Record DataFrame : Type := mkDataFrame {
  columns : list string;
  rows : list row
}.

(** [len(df)] *)
Definition len (df : DataFrame) : nat := length (rows df).

(** ['c' in df.columns] *)
Definition has_column (df : DataFrame) (c : string) : bool :=
  bool_decide (c ∈ columns df).

(** Position of a label in the column index ([Index.get_loc]). *)
Fixpoint get_loc (c : string) (cols : list string) : option nat :=
  match cols with
  | [] => None
  | c' :: cols' => if decide (c = c') then Some 0 else S <$> get_loc c cols'
  end.

(** The cell of row [r] under column [c], if the frame has that column; a
    short row reads as missing. *)
Definition row_get (cols : list string) (c : string) (r : row) : option cell :=
  (λ i, nth i r NA) <$> get_loc c cols.

Definition cell_at (cols : list string) (c : string) (r : row) : cell :=
  default NA (row_get cols c r).

(** ** Exceptions *)

Inductive exn : Type :=
  | KeyError (label : string)
  | ValueError (what : string)
  | TypeError (what : string)
  | NameError (name : string).

Inductive result (A : Type) : Type :=
  | Ok (a : A)
  | Raise (e : exn).
Arguments Ok {A} a.
Arguments Raise {A} e.

#[global] Instance result_ret : MRet result := λ A a, Ok a.
#[global] Instance result_bind : MBind result := λ A B f m,
  match m with
  | Ok a => f a
  | Raise e => Raise e
  end.

(** ** The pandas calls the script makes *)

(** [df[c]]: the column as a Series, [KeyError] when the label is absent.
    (Faithful when the label occurs once; see the note on frames.) *)
Definition getitem (df : DataFrame) (c : string) : result (list cell) :=
  if has_column df c then Ok (cell_at (columns df) c <$> rows df)
  else Raise (KeyError c).

(** Keep the first row of every key ([duplicated(keep='first')]): walk the
    rows with the keys seen so far.  Missing keys compare equal to each
    other, as in the pandas hash table. *)
Fixpoint keep_first {A} (key : A → cell) (seen : list cell) (rs : list A)
  : list A :=
  match rs with
  | [] => []
  | r :: rs' =>
      if decide (key r ∈ seen) then keep_first key seen rs'
      else r :: keep_first key (key r :: seen) rs'
  end.

(** [df.drop_duplicates(subset=c)] *)
Definition drop_duplicates (c : string) (df : DataFrame) : result DataFrame :=
  if has_column df c
  then Ok (mkDataFrame (columns df)
             (keep_first (cell_at (columns df) c) [] (rows df)))
  else Raise (KeyError c).

(** A row is complete on [subset] when none of those cells is missing. *)
Definition complete_on (cols subset : list string) (r : row) : bool :=
  forallb (λ c, notna (cell_at cols c r)) subset.

(** [df.dropna(subset=cs)] *)
Definition dropna (subset : list string) (df : DataFrame) : result DataFrame :=
  match List.find (λ c, negb (has_column df c)) subset with
  | Some c => Raise (KeyError c)
  | None =>
      Ok (mkDataFrame (columns df)
            (filter (λ r, complete_on (columns df) subset r) (rows df)))
  end.

(** [s.isin(values)] on one cell. *)
Definition isin (values : list cell) (v : cell) : bool :=
  bool_decide (v ∈ values).

(** [df[mask]] with the mask computed row by row. *)
Definition select_rows (keep : row → bool) (df : DataFrame) : DataFrame :=
  mkDataFrame (columns df) (filter (λ r, keep r) (rows df)).

(** ** Cleaning (lines 27-31) *)

Definition present_columns (df : DataFrame) (cs : list string) : list string :=
  filter (λ c, has_column df c) cs.

Definition clean_by (key : string) (required : list string) (df : DataFrame)
  : result DataFrame :=
  df1 ← (if has_column df key then drop_duplicates key df else Ok df);
  let drop_cols := present_columns df1 required in
  dropna drop_cols df1.

Definition key_column : string := "restaurant_id".
Definition required_columns : list string :=
  ["city"; "cuisines"; "aggregate_rating"].

Definition clean : DataFrame → result DataFrame :=
  clean_by key_column required_columns.

(** ** City filter (lines 38, 43-44)

    [allowed_values] is what the multiselect widget hands back. *)

Definition filter_by_values (df : DataFrame) (column : string)
    (allowed_values : list cell) : DataFrame :=
  if has_column df column then
    match allowed_values with
    | [] => df
    | _ :: _ =>
        select_rows
          (λ r, isin allowed_values (cell_at (columns df) column r)) df
    end
  else df.

(** ** Counting and sorting *)

(** [s.unique()]: the distinct cells in order of first appearance. *)
Definition unique (s : list cell) : list cell := keep_first id [] s.

Definition occurrences (v : cell) (s : list cell) : nat :=
  length (filter (λ x, x = v) s).

(** Position of the first occurrence of [v] in [s] ([length s] when absent). *)
Fixpoint first_pos (v : cell) (s : list cell) : nat :=
  match s with
  | [] => 0
  | x :: s' => if decide (x = v) then 0 else S (first_pos v s')
  end.

(** Order-keeping insertion sort: an element is put in front of the first
    element it may precede, so equal elements stay in input order. *)
Section sort.
Context {A : Type} (R : relation A) `{!RelDecision R}.

Fixpoint insert_sorted (x : A) (l : list A) : list A :=
  match l with
  | [] => [x]
  | y :: l' => if decide (R x y) then x :: y :: l' else y :: insert_sorted x l'
  end.

Definition sort_values (l : list A) : list A := foldr insert_sorted [] l.

(** What the sort achieves when [prior] is the order the elements come in:
    an element stands before another when [R] orders them so, and two
    elements that [R] does not tell apart stand as [prior] has them. *)
Definition sorted_keeping (prior : relation A) (x y : A) : Prop :=
  R x y ∧ (R y x → prior x y).
End sort.

(** Larger count first. *)
Definition count_ge (p q : cell * nat) : Prop := (q.2 ≤ p.2)%nat.
#[global] Instance count_ge_dec : RelDecision count_ge.
Proof. intros p q. unfold count_ge. apply _. Defined.

(** [s.value_counts()]: missing cells are not counted ([dropna=True]); the
    counts come out of the hash table in order of first appearance and are
    sorted by falling count.  pandas does not document the order of equal
    counts; the sort here keeps them in order of first appearance, which is
    what its default sort does on the short tables it sorts by insertion. *)
Definition value_counts (s : list cell) : list (cell * nat) :=
  let vals := filter (λ x, notna x) s in
  sort_values count_ge ((λ v, (v, occurrences v vals)) <$> unique vals).

(** [top_n_frequency] (lines 62-63 and 74-75): [value_counts().head(n)]
    behind the column guard. *)
Definition top_n_frequency (df : DataFrame) (column : string) (n : nat)
  : result (list (cell * nat)) :=
  if has_column df column then
    s ← getitem df column;
    Ok (take n (value_counts s))
  else Ok [].

(** Order of group keys: numbers by value, then text by code point, missing
    last. *)
Definition cell_le (a b : cell) : Prop :=
  match a, b with
  | Num x, Num y => (x <= y)%Qc
  | Num _, _ => True
  | Str _, Num _ => False
  | Str s, Str t => String.le s t
  | Str _, NA => True
  | NA, NA => True
  | NA, _ => False
  end.

#[global] Instance cell_le_dec : RelDecision cell_le.
Proof. intros [x|s|] [y|t|]; simpl; apply _. Defined.

(** ** Numeric reductions *)

Definition Qc_of_nat (n : nat) : Qc := Qc_of_Z (Z.of_nat n).

(** The non-missing numbers of a Series.  Text among them makes the
    reduction fail: [mean] raises [TypeError], and so does [sum] on mixed
    cells (on text alone it joins the strings, which [int] then rejects
    unless they happen to spell a whole number). *)
Fixpoint numbers (s : list cell) : result (list Qc) :=
  match s with
  | [] => Ok []
  | Num q :: s' => qs ← numbers s'; Ok (q :: qs)
  | NA :: s' => numbers s'
  | Str _ :: _ => Raise (TypeError "str")
  end.

Definition Qc_sum (qs : list Qc) : Qc := foldr Qcplus (Qc_of_Z 0) qs.

(** A Python float: [None] is NaN. *)
Definition pyfloat : Type := option Qc.

(** The mean of a list of numbers, NaN when there are none. *)
Definition mean_of (qs : list Qc) : pyfloat :=
  match qs with
  | [] => None
  | _ :: _ => Some (Qc_sum qs / Qc_of_nat (length qs))%Qc
  end.

(** The fraction a float stands for, in lowest terms. *)
Definition fraction (x : pyfloat) : option Q := this <$> x.

(** [s.mean()] *)
Definition series_mean (s : list cell) : result pyfloat :=
  qs ← numbers s;
  Ok (mean_of qs).

(** [s.sum()]: 0 on no numbers. *)
Definition series_sum (s : list cell) : result pyfloat :=
  qs ← numbers s;
  Ok (Some (Qc_sum qs)).

(** [int(x)]: truncation toward zero; NaN is a [ValueError].  (An infinite
    float, which [int] rejects with [OverflowError], cannot come up here:
    cells are finite and sums exact.) *)
Definition py_int (x : pyfloat) : result Z :=
  match x with
  | None => Raise (ValueError "cannot convert float NaN to integer")
  | Some q => Ok (Z.quot (Qnum q) (Zpos (Qden q)))
  end.

(** [round(x, 2)]: to the nearest hundredth, ties to even; NaN stays NaN. *)
Definition py_round2 (x : pyfloat) : pyfloat :=
  match x with
  | None => None
  | Some q =>
      let y := (q * Qc_of_Z 100)%Qc in
      let f := Qfloor y in
      let twice := (2 * Qnum y - 2 * f * Zpos (Qden y))%Z in
      let up :=
        match (twice ?= Zpos (Qden y))%Z with
        | Lt => false
        | Gt => true
        | Eq => Z.odd f
        end in
      Some (Qc_of_Z (if up then f + 1 else f) / Qc_of_Z 100)%Qc
  end.

(** ** Metrics (lines 52-55) *)

Record Metrics : Type := mkMetrics {
  total_restaurants : nat;
  average_rating : pyfloat;
  total_votes : Z;
  avg_cost_for_two : Z
}.

Definition compute_metrics (df : DataFrame) : result Metrics :=
  let n := len df in
  rating ← getitem df "aggregate_rating";
  m ← series_mean rating;
  let avg := py_round2 m in
  votes ← (if has_column df "votes"
           then s ← getitem df "votes"; t ← series_sum s; py_int t
           else Ok 0%Z);
  cost ← (if has_column df "average_cost_for_two"
          then s ← getitem df "average_cost_for_two"; c ← series_mean s; py_int c
          else Ok 0%Z);
  Ok (mkMetrics n avg votes cost).

(** ** Grouped mean (lines 115-116) *)

(** Group keys of [groupby]: missing keys form no group ([dropna=True]) and
    the keys are sorted ([sort=True]). *)
Definition group_keys (keys : list cell) : list cell :=
  sort_values cell_le (unique (filter (λ x, notna x) keys)).

(** The value cells of the rows of group [k], in table order. *)
Definition group_values (cols : list string) (group_column value_column : string)
    (rs : list row) (k : cell) : list cell :=
  cell_at cols value_column
    <$> filter (λ r, cell_at cols group_column r = k) rs.

(** [df.groupby(g)[v].mean().reset_index()] *)
Definition groupby_mean (df : DataFrame) (group_column value_column : string)
  : result (list (cell * pyfloat)) :=
  keys ← getitem df group_column;
  _ ← getitem df value_column;
  mapM (λ k,
          m ← series_mean
                (group_values (columns df) group_column value_column (rows df) k);
          Ok (k, m))
       (group_keys keys).

Definition grouped_mean (df : DataFrame) (group_column value_column : string)
  : result (list (cell * pyfloat)) :=
  if has_column df group_column
  then groupby_mean df group_column value_column
  else Ok [].

(** ** Chart inputs

    A figure is kept as the named column arrays plotly express is given;
    it rejects a column name the frame does not have with a [ValueError]. *)

Definition Figure : Type := list (string * list cell).

Definition px_column (df : DataFrame) (c : string) : result (list cell) :=
  if has_column df c then Ok (cell_at (columns df) c <$> rows df)
  else Raise (ValueError c).

(** An argument written ['c' if 'c' in df.columns else None]. *)
Definition px_optional (df : DataFrame) (role c : string) : Figure :=
  if has_column df c then [(role, cell_at (columns df) c <$> rows df)] else [].

Fixpoint px_columns (df : DataFrame) (cs : list string) : result Figure :=
  match cs with
  | [] => Ok []
  | c :: cs' => s ← px_column df c; f ← px_columns df cs'; Ok ((c, s) :: f)
  end.

(** Lines 86-88: no guard. *)
Definition rating_histogram (df : DataFrame) : result Figure :=
  x ← px_column df "aggregate_rating";
  Ok [("x", x)].

(** Lines 93-100. *)
Definition cost_vs_rating (df : DataFrame) : result (option Figure) :=
  if has_column df "average_cost_for_two" && has_column df "aggregate_rating"
  then
    x ← px_column df "average_cost_for_two";
    y ← px_column df "aggregate_rating";
    hover ← px_columns df ["cuisines"];
    Ok (Some ([("x", x); ("y", y)] ++ px_optional df "color" "city"
                ++ px_optional df "size" "votes" ++ hover))
  else Ok None.

(** Lines 105-110. *)
Definition votes_vs_rating (df : DataFrame) : result (option Figure) :=
  if has_column df "votes"
  then
    x ← px_column df "votes";
    y ← px_column df "aggregate_rating";
    Ok (Some ([("x", x); ("y", y)] ++ px_optional df "color" "city"))
  else Ok None.

(** Lines 127-137. *)
Definition geo_points (df : DataFrame) : result (option Figure) :=
  if has_column df "latitude" && has_column df "longitude"
  then
    lat ← px_column df "latitude";
    lon ← px_column df "longitude";
    hover ← px_columns df ["city"; "cuisines"; "aggregate_rating"];
    color ← px_column df "aggregate_rating";
    Ok (Some ([("lat", lat); ("lon", lon)]
                ++ px_optional df "hover_name" "restaurant_name"
                ++ hover ++ [("color", color)]))
  else Ok None.

Definition top_cities (df : DataFrame) := top_n_frequency df "city" 10.
Definition top_cuisines (df : DataFrame) := top_n_frequency df "cuisines" 10.
Definition price_vs_rating (df : DataFrame) :=
  grouped_mean df "price_range" "aggregate_rating".

(** ** The city widget (lines 38-44) *)

Definition is_num (c : cell) : bool :=
  match c with Num _ => true | _ => false end.

Definition is_text (c : cell) : bool :=
  match c with Str _ => true | _ => false end.

(** Python's [sorted] on a list without missing cells: numbers compare
    among themselves and text among itself; comparing a number with text is
    a [TypeError], which any sort of a list holding both runs into. *)
Definition py_sorted (l : list cell) : result (list cell) :=
  if forallb is_num l || forallb is_text l
  then Ok (sort_values cell_le l)
  else Raise (TypeError "'<' not supported between 'str' and 'float'").

(** Line 39: [sorted(df['city'].dropna().unique().tolist())]. *)
Definition city_options (df : DataFrame) : result (list cell) :=
  s ← getitem df "city";
  py_sorted (unique (filter (λ x, notna x) s)).

(** Line 41: [default=cities[:5]]. *)
Definition default_cities (cities : list cell) : list cell := take 5 cities.

(** Lines 38-44 with the widget as [choose], from the options to the
    selection. *)
Definition sidebar_filter (choose : list cell → list cell) (df : DataFrame)
  : result DataFrame :=
  if has_column df "city" then
    cities ← city_options df;
    let selected_cities := choose cities in
    match selected_cities with
    | [] => Ok df
    | _ :: _ =>
        Ok (select_rows
              (λ r, isin selected_cities (cell_at (columns df) "city" r)) df)
    end
  else Ok df.

(** ** The object behind [df]

    The script's variable [df] names a frame object.  [inplace=True] writes
    the result back into that object; [df = df[...]] makes a new object and
    rebinds the variable. *)

Definition loc : Type := nat.

Record PyState : Type := mkPyState {
  store : gmap loc DataFrame;
  var_df : loc
}.

Definition deref (σ : gmap loc DataFrame) (l : loc) : result DataFrame :=
  match σ !! l with
  | Some d => Ok d
  | None => Raise (NameError "df")
  end.

(** [obj.method(..., inplace=True)] *)
Definition update_inplace (l : loc) (method : DataFrame → result DataFrame)
    (σ : gmap loc DataFrame) : result (gmap loc DataFrame) :=
  d ← deref σ l;
  d' ← method d;
  Ok (<[l := d']> σ).

(** Line 21: [df = load_data()].  The cache decorator hands every run its
    own copy of the loaded frame; [loaded] is that copy, with the column
    names already normalised (line 18). *)
Definition run_load (loaded : DataFrame) : PyState :=
  mkPyState {[ 0 := loaded ]} 0.

(** Lines 27-31. *)
Definition run_clean (st : PyState) : result PyState :=
  d ← deref (store st) (var_df st);
  σ1 ← (if has_column d key_column
        then update_inplace (var_df st) (drop_duplicates key_column) (store st)
        else Ok (store st));
  d1 ← deref σ1 (var_df st);
  let drop_cols := present_columns d1 required_columns in
  σ2 ← update_inplace (var_df st) (dropna drop_cols) σ1;
  Ok (mkPyState σ2 (var_df st)).

(** Lines 38-44: the options are built first (line 39, which may raise),
    the widget's answer [choose] is read, and a non-empty selection rebinds
    [df] to a new object. *)
Definition run_filter (choose : list cell → list cell) (st : PyState)
  : result PyState :=
  d ← deref (store st) (var_df st);
  if has_column d "city" then
    cities ← city_options d;
    let selected_cities := choose cities in
    match selected_cities with
    | [] => Ok st
    | _ :: _ =>
        let l := fresh (dom (store st)) in
        Ok (mkPyState
              (<[l := select_rows
                        (λ r, isin selected_cities
                                (cell_at (columns d) "city" r)) d]>
                 (store st))
              l)
    end
  else Ok st.

(** Lines 52-55 read the object [df] names. *)
Definition run_metrics (st : PyState) : result Metrics :=
  d ← deref (store st) (var_df st);
  compute_metrics d.

(** A new object for a table just built. *)
Definition alloc (d : DataFrame) (σ : gmap loc DataFrame)
  : loc * gmap loc DataFrame :=
  let l := fresh (dom σ) in (l, <[l := d]> σ).

(** [obj.columns = names]: the labels of that object are replaced in place;
    a list of another length is a [ValueError]. *)
Definition set_columns (l : loc) (names : list string)
    (σ : gmap loc DataFrame) : result (gmap loc DataFrame) :=
  d ← deref σ l;
  if decide (length names = length (columns d))
  then Ok (<[l := mkDataFrame names (rows d)]> σ)
  else Raise (ValueError "Length mismatch").

(** [value_counts().head(10).reset_index()]: a frame of two columns, the
    values and their counts.  (Which labels [reset_index] gives them depends
    on the pandas version; the next line of the script replaces both.) *)
Definition counts_frame (column : string) (counts : list (cell * nat))
  : DataFrame :=
  mkDataFrame [column; "count"]
    ((λ p, [p.1; Num (Qc_of_nat p.2)]) <$> counts).

(** Lines 62-64 and 74-76: the frequency table is a new object,
    [city_count], whose labels are then set in place. *)
Definition run_top_n (column label : string) (st : PyState)
  : result (option loc * PyState) :=
  d ← deref (store st) (var_df st);
  if has_column d column then
    s ← getitem d column;
    let a := alloc (counts_frame column (take 10 (value_counts s)))
               (store st) in
    σ ← set_columns a.1 [label; "count"] a.2;
    Ok (Some a.1, mkPyState σ (var_df st))
  else Ok (None, st).

Definition run_top_cities : PyState → result (option loc * PyState) :=
  run_top_n "city" "city".
Definition run_top_cuisines : PyState → result (option loc * PyState) :=
  run_top_n "cuisines" "cuisine".

Definition float_cell (x : pyfloat) : cell :=
  match x with Some q => Num q | None => NA end.

(** [groupby(g)[v].mean().reset_index()] as a frame. *)
Definition means_frame (g v : string) (out : list (cell * pyfloat))
  : DataFrame :=
  mkDataFrame [g; v] ((λ p, [p.1; float_cell p.2]) <$> out).

(** Lines 115-116: [price_rating] is a new object. *)
Definition run_price_vs_rating (st : PyState)
  : result (option loc * PyState) :=
  d ← deref (store st) (var_df st);
  if has_column d "price_range" then
    out ← groupby_mean d "price_range" "aggregate_rating";
    let a := alloc (means_frame "price_range" "aggregate_rating" out)
               (store st) in
    Ok (Some a.1, mkPyState a.2 (var_df st))
  else Ok (None, st).

(** ** The cleaning rules in the specification's words

    Step 1: of the rows that share a key value only the first one seen stays,
    that is, a row stays exactly when no earlier row carries its key. *)
Definition first_seen_rows (key : row → cell) (rs : list row) : list row :=
  omap (λ i, r ← rs !! i;
             if decide (key r ∈ key <$> take i rs) then None else Some r)
       (seq 0 (length rs)).

(** Step 2: a row stays when it has no missing value in a required column
    that the table has. *)
Definition has_required (cols required : list string) (r : row) : Prop :=
  Forall (λ c, c ∈ cols → cell_at cols c r ≠ NA) required.

#[global] Instance has_required_dec cols required r :
  Decision (has_required cols required r).
Proof. unfold has_required. apply _. Defined.

(** The rows the cleaning block leaves, as a function of the frame. *)
Definition cleaned_rows (key : string) (required : list string)
    (df : DataFrame) : list row :=
  filter (has_required (columns df) required)
    (if has_column df key
     then keep_first (cell_at (columns df) key) [] (rows df)
     else rows df).

(** The order of a frequency table over the Series [s]: counts fall, and of
    two values with the same count the one that occurs first in [s] comes
    first. *)
Definition count_order (s : list cell) (p q : cell * nat) : Prop :=
  q.2 ≤ p.2 ∧ (p.2 = q.2 → first_pos p.1 s < first_pos q.1 s).

(** The frame without the rows whose cell under [column] is missing. *)
Definition drop_missing (column : string) (df : DataFrame) : DataFrame :=
  select_rows (λ r, notna (cell_at (columns df) column r)) df.

(** Strictly rising group keys. *)
Definition cell_lt (a b : cell) : Prop := cell_le a b ∧ a ≠ b.

(** The numbers among the cells of a Series, in order. *)
Definition number_values (s : list cell) : list Qc :=
  omap (λ c, match c with Num q => Some q | _ => None end) s.

(** A cell that is not text. *)
Definition not_text (c : cell) : Prop :=
  match c with Str _ => False | _ => True end.

(** Whole numbers as cells, for examples. *)
Definition num (z : Z) : cell := Num (Qc_of_Z z).

(** Two restaurants, the dearer one listed first. *)
Definition price_example : DataFrame :=
  mkDataFrame ["price_range"; "aggregate_rating"]
    [[num 2; num 4]; [num 1; num 3]].

(** One restaurant listed twice. *)
Definition duplicate_example : DataFrame :=
  mkDataFrame ["restaurant_id"; "city"]
    [[num 1; Str "A"]; [num 1; Str "A"]].

(** A table with no rating column. *)
Definition no_rating_example : DataFrame :=
  mkDataFrame ["city"; "votes"; "price_range"]
    [[Str "A"; num 10; num 2]].

(** A table with the rating and cost columns and no rows. *)
Definition empty_example : DataFrame :=
  mkDataFrame ["aggregate_rating"; "average_cost_for_two"] [].

(** Three restaurants in two cities. *)
Definition city_example : DataFrame :=
  mkDataFrame ["city"] [[Str "A"]; [Str "B"]; [Str "A"]].

(** The cleaning scenario of the specification, with the script's column
    names. *)
Definition scenario_example : DataFrame :=
  mkDataFrame ["city"; "aggregate_rating"; "votes"]
    [[Str "A"; num 4; num 10]; [Str "A"; NA; num 5]; [Str "B"; num 3; NA]].

(** The frequency scenario of the specification. *)
Definition letters_example : DataFrame :=
  mkDataFrame ["city"]
    [[Str "A"]; [Str "A"]; [Str "B"]; [Str "C"]; [Str "C"]; [Str "C"]].

(** ** Loading (lines 16-19)

    The file is read as Latin-1, so every byte of a header is one code point
    below 256 and a column name is a string of such code points.  Line 18
    strips, lower-cases and underscores every name. *)

(** Python's [str.isspace] on code points below 256: tab to carriage
    return, the four separators, the space, NEL and the no-break space. *)
Definition is_space (a : ascii) : bool :=
  let n := N_of_ascii a in
  ((9 <=? n) && (n <=? 13) || (28 <=? n) && (n <=? 32)
   || (n =? 133) || (n =? 160))%N.

(** The upper-case letters below 256: A to Z, and the accented capitals
    (every code point from 192 to 222 but the multiplication sign). *)
Definition is_upper (a : ascii) : bool :=
  let n := N_of_ascii a in
  ((65 <=? n) && (n <=? 90)
   || (192 <=? n) && (n <=? 222) && negb (n =? 215))%N.

Definition lower_char (a : ascii) : ascii :=
  if is_upper a then ascii_of_N (N_of_ascii a + 32) else a.

Definition underscore_char (a : ascii) : ascii :=
  if Ascii.eqb a " " then "_"%char else a.

Fixpoint lstrip (l : list ascii) : list ascii :=
  match l with
  | [] => []
  | a :: l' => if is_space a then lstrip l' else l
  end.

Fixpoint rstrip (l : list ascii) : list ascii :=
  match l with
  | [] => []
  | a :: l' =>
      match rstrip l' with
      | [] => if is_space a then [] else [a]
      | t => a :: t
      end
  end.

(** A list of code points with no whitespace at either end. *)
Definition is_stripped (l : list ascii) : Prop := lstrip l = l ∧ rstrip l = l.

(** [s.strip()] *)
Definition strip (l : list ascii) : list ascii := rstrip (lstrip l).

(** [s.strip().lower().replace(' ', '_')] on the code points of a name. *)
Definition normalize_chars (l : list ascii) : list ascii :=
  underscore_char <$> (lower_char <$> strip l).

Definition normalize_column (s : string) : string :=
  String.string_of_list_ascii
    (normalize_chars (String.list_ascii_of_string s)).

(** [load_data] applied to what [read_csv] returns. *)
Definition load_data (csv : DataFrame) : DataFrame :=
  mkDataFrame (normalize_column <$> columns csv) (rows csv).

(** ** The script from cleaning on (lines 27-137)

    What one run hands to the page.  The statements run in order and the
    first exception ends the run. *)

Record Dashboard : Type := mkDashboard {
  metrics : Metrics;
  fig1 : list (cell * nat);
  fig2 : list (cell * nat);
  fig3 : Figure;
  fig4 : option Figure;
  fig5 : option Figure;
  fig6 : list (cell * pyfloat);
  fig7 : option Figure
}.

Definition dashboard (choose : list cell → list cell) (loaded : DataFrame)
  : result Dashboard :=
  df ← clean loaded;
  df ← sidebar_filter choose df;
  m ← compute_metrics df;
  f1 ← top_cities df;
  f2 ← top_cuisines df;
  f3 ← rating_histogram df;
  f4 ← cost_vs_rating df;
  f5 ← votes_vs_rating df;
  f6 ← price_vs_rating df;
  f7 ← geo_points df;
  Ok (mkDashboard m f1 f2 f3 f4 f5 f6 f7).

(** Lines 21-44 on the object store. *)
Definition run_pipeline (choose : list cell → list cell) (loaded : DataFrame)
  : result PyState :=
  st ← run_clean (run_load loaded);
  run_filter choose st.


(** * Properties *)

(** ** Columns and cells *)

Lemma has_column_spec df c : has_column df c = true ↔ c ∈ columns df.
Proof. unfold has_column. apply bool_decide_eq_true. Qed.

Lemma get_loc_is_Some c cols : c ∈ cols → is_Some (get_loc c cols).
Proof.
  induction cols as [|c' cols IH]; intros Hin.
  - by apply elem_of_nil in Hin.
  - simpl. destruct (decide (c = c')) as [->|Hne]; [by eexists|].
    apply elem_of_cons in Hin as [?|Hin]; [done|].
    destruct (IH Hin) as [i ->]. by eexists.
Qed.

Lemma get_loc_None c cols : c ∉ cols → get_loc c cols = None.
Proof.
  induction cols as [|c' cols IH]; intros Hnin; [done|].
  simpl. destruct (decide (c = c')) as [->|Hne].
  - exfalso. apply Hnin. left.
  - rewrite IH; [done|]. intros ?. apply Hnin. by right.
Qed.

Lemma row_get_present cols c r :
  c ∈ cols → row_get cols c r = Some (cell_at cols c r).
Proof.
  intros Hin. unfold cell_at, row_get.
  by destruct (get_loc_is_Some _ _ Hin) as [i ->].
Qed.

Lemma row_get_absent cols c r : c ∉ cols → row_get cols c r = None.
Proof. intros Hnin. unfold row_get. by rewrite get_loc_None. Qed.

(** ** The filter stage *)

Lemma filter_by_values_columns df column allowed :
  columns (filter_by_values df column allowed) = columns df.
Proof.
  unfold filter_by_values. destruct (has_column df column); [|done].
  by destruct allowed.
Qed.

Lemma filter_by_values_sublist df column allowed :
  rows (filter_by_values df column allowed) `sublist_of` rows df.
Proof.
  unfold filter_by_values. destruct (has_column df column); [|done].
  destruct allowed; [done|]. simpl. apply sublist_filter.
Qed.

(** C7: filtering with an empty selection returns the table unchanged,
    whatever the table and the column. *)
Theorem filter_by_values_empty (df : DataFrame) (column : string) :
  filter_by_values df column [] = df.
Proof. unfold filter_by_values. by destruct (has_column df column). Qed.

Lemma filter_by_values_row_get df column allowed r v :
  allowed ≠ [] →
  r ∈ rows (filter_by_values df column allowed) →
  row_get (columns df) column r = Some v → v ∈ allowed.
Proof.
  intros Hne Hr Hv. unfold filter_by_values in Hr.
  destruct (has_column df column) eqn:Hc.
  - destruct allowed as [|a l]; [done|]. simpl in Hr.
    apply list_elem_of_filter in Hr as [Hin _].
    unfold isin in Hin. apply bool_decide_unpack in Hin.
    unfold cell_at in Hin. by rewrite Hv in Hin.
  - rewrite row_get_absent in Hv; [done|].
    intros Hin. apply has_column_spec in Hin. congruence.
Qed.

(** On a frame that has the column, every filtered row does carry a cell
    there. *)
Lemma filter_by_values_present df column allowed r :
  column ∈ columns df → allowed ≠ [] →
  r ∈ rows (filter_by_values df column allowed) →
  cell_at (columns df) column r ∈ allowed.
Proof.
  intros Hc Hne Hr. apply (filter_by_values_row_get df column allowed r); [done..|].
  by apply row_get_present.
Qed.

(** C6: with a non-empty selection, every row of the filtered table has its
    cell of the filter column among the allowed values, and the filtered rows
    are a subsequence of the input rows in their order, so there are no more
    of them than before; the columns are kept. *)
Theorem filter_by_values_sound (df : DataFrame) (column : string)
    (allowed_values : list cell) :
  allowed_values ≠ [] →
  (∀ r v, r ∈ rows (filter_by_values df column allowed_values) →
          row_get (columns df) column r = Some v → v ∈ allowed_values)
  ∧ rows (filter_by_values df column allowed_values) `sublist_of` rows df
  ∧ len (filter_by_values df column allowed_values) ≤ len df
  ∧ columns (filter_by_values df column allowed_values) = columns df.
Proof.
  intros Hne. split_and!.
  - intros r v. by apply filter_by_values_row_get.
  - apply filter_by_values_sublist.
  - unfold len. apply sublist_length, filter_by_values_sublist.
  - apply filter_by_values_columns.
Qed.

Lemma filter_by_values_sound_witness :
  (∀ r v, r ∈ rows (filter_by_values city_example "city" [Str "A"]) →
          row_get (columns city_example) "city" r = Some v → v ∈ [Str "A"])
  ∧ rows (filter_by_values city_example "city" [Str "A"])
    `sublist_of` rows city_example
  ∧ len (filter_by_values city_example "city" [Str "A"]) ≤ len city_example
  ∧ columns (filter_by_values city_example "city" [Str "A"])
    = columns city_example.
Proof.
  apply (filter_by_values_sound city_example "city" [Str "A"]).
  discriminate.
Defined.

Example filter_by_values_city_example :
  rows (filter_by_values city_example "city" [Str "A"])
  = [[Str "A"]; [Str "A"]].
Proof. reflexivity. Qed.

(** ** Keeping the first row of every key *)

Section keep_first.
Context {A : Type} (key : A → cell).

Lemma keep_first_sublist seen l : keep_first key seen l `sublist_of` l.
Proof.
  revert seen. induction l as [|r l IH]; intros seen; simpl; [done|].
  case_decide; [apply sublist_cons|apply sublist_skip]; apply IH.
Qed.

Lemma keep_first_elem_of seen l r :
  r ∈ keep_first key seen l → r ∈ l ∧ key r ∉ seen.
Proof.
  revert seen. induction l as [|x l IH]; intros seen; simpl.
  - by intros ?%elem_of_nil.
  - case_decide as Hx.
    + intros [? ?]%IH. split; [by right|done].
    + intros [->|Hin]%elem_of_cons; [split; [left|done]|].
      apply IH in Hin as [? Hn]. split; [by right|].
      intros ?. apply Hn. by right.
Qed.

Lemma keep_first_keys seen l k :
  k ∈ key <$> keep_first key seen l ↔ k ∈ key <$> l ∧ k ∉ seen.
Proof.
  revert seen. induction l as [|x l IH]; intros seen; cbn [keep_first].
  - split; [by intros ?%elem_of_nil|by intros [?%elem_of_nil _]].
  - rewrite fmap_cons. case_decide as Hx.
    + rewrite IH, elem_of_cons. split; [intros [? ?]; by auto|].
      intros [[->|?] ?]; [done|by split].
    + rewrite fmap_cons, !elem_of_cons, IH, elem_of_cons. split.
      * intros [->|[? Hk]]; [by split; [left|]|]. split; [by right|]. tauto.
      * intros [[->|?] Hk]; [by left|].
        destruct (decide (k = key x)) as [->|?]; [by left|right].
        split; [done|]. by intros [?|?].
Qed.

Lemma keep_first_NoDup seen l : NoDup (key <$> keep_first key seen l).
Proof.
  revert seen. induction l as [|x l IH]; intros seen; simpl.
  - constructor.
  - case_decide; [apply IH|]. rewrite fmap_cons. constructor; [|apply IH].
    rewrite keep_first_keys. intros [_ Hn]. apply Hn. left.
Qed.

Lemma keep_first_id seen l :
  NoDup (key <$> l) → (∀ r, r ∈ l → key r ∉ seen) →
  keep_first key seen l = l.
Proof.
  revert seen. induction l as [|x l IH]; intros seen Hnd Hseen; simpl; [done|].
  rewrite fmap_cons in Hnd. apply NoDup_cons in Hnd as [Hx Hnd].
  destruct (decide (key x ∈ seen)) as [Hin|_].
  { exfalso. by apply (Hseen x); [left|]. }
  f_equal. apply IH; [done|]. intros r Hr [Heq|?]%elem_of_cons.
  - apply Hx. rewrite <- Heq. by apply list_elem_of_fmap_2.
  - apply (Hseen r); [by right|done].
Qed.

Lemma keep_first_snoc seen p r :
  keep_first key seen (p ++ [r])
  = keep_first key seen p
      ++ (if decide (key r ∈ seen ++ (key <$> p)) then [] else [r]).
Proof.
  revert seen. induction p as [|x p IH]; intros seen; cbn [keep_first app].
  - rewrite fmap_nil, app_nil_r. by case_decide.
  - rewrite fmap_cons. case_decide as Hx; rewrite IH.
    + f_equal. apply decide_ext.
      rewrite !elem_of_app, elem_of_cons.
      split; [intros [?|?]; by auto|]. intros [?|[->|?]]; by auto.
    + cbn [app]. do 2 f_equal. apply decide_ext.
      rewrite !elem_of_cons, !elem_of_app, !elem_of_cons. tauto.
Qed.
End keep_first.

Lemma omap_ext_elem_of {A B} (f g : A → option B) (l : list A) :
  (∀ x, x ∈ l → f x = g x) → omap f l = omap g l.
Proof.
  induction l as [|x l IH]; intros Hfg; simpl; [done|].
  rewrite (Hfg x) by left.
  assert (omap f l = omap g l) as Hl by (apply IH; intros y ?; apply Hfg; by right).
  destruct (g x); [f_equal|]; exact Hl.
Qed.

Lemma first_seen_rows_snoc key p r :
  first_seen_rows key (p ++ [r])
  = first_seen_rows key p ++ (if decide (key r ∈ key <$> p) then [] else [r]).
Proof.
  unfold first_seen_rows. rewrite length_app. simpl.
  rewrite seq_app, omap_app. f_equal.
  - apply omap_ext_elem_of. intros i Hi.
    apply elem_of_seq in Hi as [_ Hi]. simpl in Hi.
    rewrite lookup_app_l by done. rewrite take_app_le by lia. done.
  - simpl. rewrite list_lookup_middle by done. simpl.
    rewrite take_app_length. by case_decide.
Qed.

(** The walk with a seen-set keeps exactly the first-seen rows. *)
Lemma keep_first_first_seen key rs :
  keep_first key [] rs = first_seen_rows key rs.
Proof.
  induction rs as [|r p IH] using rev_ind; [done|].
  rewrite keep_first_snoc, first_seen_rows_snoc, IH. done.
Qed.

(** ** Cleaning *)

Lemma present_columns_find df cs :
  List.find (λ c, negb (has_column df c)) (present_columns df cs) = None.
Proof.
  unfold present_columns. induction cs as [|c cs IH]; [done|].
  rewrite filter_cons. case_decide as Hc; [|done].
  simpl. destruct (has_column df c); [done|]. by destruct Hc.
Qed.

Lemma dropna_present df cs :
  dropna (present_columns df cs) df
  = Ok (mkDataFrame (columns df)
          (filter (λ r, complete_on (columns df) (present_columns df cs) r)
                  (rows df))).
Proof. unfold dropna. by rewrite present_columns_find. Qed.

Lemma complete_on_has_required df required r :
  complete_on (columns df) (present_columns df required) r
  ↔ has_required (columns df) required r.
Proof.
  unfold complete_on, has_required, present_columns.
  induction required as [|c cs IH].
  - split; [constructor|done].
  - rewrite filter_cons, Forall_cons, <- IH. case_decide as Hc.
    + apply Is_true_true, has_column_spec in Hc.
      cbn [forallb]. rewrite andb_True. unfold notna.
      destruct (cell_at (columns df) c r); simpl; split; try tauto;
        intros [H ?]; by try (exfalso; by apply H).
    + split; [|tauto]. intros ?. split; [|done]. intros Hin.
      destruct Hc. by apply Is_true_true, has_column_spec.
Qed.

Lemma clean_by_Ok key required df :
  clean_by key required df
  = Ok (mkDataFrame (columns df) (cleaned_rows key required df)).
Proof.
  unfold clean_by, cleaned_rows, drop_duplicates.
  destruct (has_column df key); simpl.
  - rewrite (dropna_present (mkDataFrame _ _)). simpl. do 2 f_equal.
    apply list_filter_iff. intros r.
    apply (complete_on_has_required (mkDataFrame (columns df) _)).
  - rewrite dropna_present. do 2 f_equal.
    apply list_filter_iff. intros r. apply complete_on_has_required.
Qed.

Lemma filter_idemp {A} (P : A → Prop) `{!∀ x, Decision (P x)} (l : list A) :
  filter P (filter P l) = filter P l.
Proof. rewrite list_filter_filter. apply list_filter_iff. tauto. Qed.

Lemma cleaned_rows_sublist key required df :
  cleaned_rows key required df `sublist_of` rows df.
Proof.
  unfold cleaned_rows. etrans; [apply sublist_filter|].
  destruct (has_column df key); [apply keep_first_sublist|done].
Qed.

Lemma cleaned_rows_idemp key required df :
  cleaned_rows key required
    (mkDataFrame (columns df) (cleaned_rows key required df))
  = cleaned_rows key required df.
Proof.
  unfold cleaned_rows at 1. simpl.
  replace (has_column (mkDataFrame (columns df) (cleaned_rows key required df)) key)
    with (has_column df key) by done.
  unfold cleaned_rows. destruct (has_column df key).
  - rewrite keep_first_id; [apply filter_idemp| |intros ? _; apply not_elem_of_nil].
    eapply sublist_NoDup; [|apply fmap_sublist, sublist_filter].
    apply keep_first_NoDup.
  - apply filter_idemp.
Qed.

(** C8: cleaning is idempotent: cleaning always yields a table, and cleaning
    that table again yields the same table. *)
Theorem clean_idempotent (df : DataFrame) :
  ∃ d, clean df = Ok d ∧ clean d = Ok d.
Proof.
  unfold clean. eexists. split; [apply clean_by_Ok|].
  rewrite clean_by_Ok. simpl. by rewrite cleaned_rows_idemp.
Qed.

(** C9: cleaning raises nothing and keeps the columns.  Its rows are got by
    first keeping, when the key column is there, only the first-seen row of
    every key value (a row stays exactly when no earlier row carries its
    key), and then keeping the rows with no missing value in a required
    column that the table has; what is left is a subsequence of the input
    rows, so cleaning adds no row. *)
Theorem clean_spec (df : DataFrame) :
  ∃ d, clean df = Ok d
     ∧ columns d = columns df
     ∧ rows d
       = filter (has_required (columns df) required_columns)
           (if has_column df key_column
            then first_seen_rows (cell_at (columns df) key_column) (rows df)
            else rows df)
     ∧ rows d `sublist_of` rows df
     ∧ len d ≤ len df.
Proof.
  unfold clean. eexists. split; [apply clean_by_Ok|]. simpl. split_and!.
  - done.
  - unfold cleaned_rows. by rewrite keep_first_first_seen.
  - apply cleaned_rows_sublist.
  - unfold len. simpl. apply sublist_length, cleaned_rows_sublist.
Qed.

(** ** The order-keeping sort *)

Section sort_facts.
Context {A : Type} (R : relation A) `{!RelDecision R}.

Lemma insert_sorted_Permutation x l : insert_sorted R x l ≡ₚ x :: l.
Proof.
  induction l as [|y l IH]; simpl; [done|].
  case_decide; [done|]. rewrite IH. apply Permutation_swap.
Qed.

Lemma sort_values_Permutation l : sort_values R l ≡ₚ l.
Proof.
  induction l as [|x l IH]; simpl; [done|].
  by rewrite insert_sorted_Permutation, IH.
Qed.

Context (prior : relation A) `{!Total R, !Transitive R}.

Lemma insert_sorted_keeping x l :
  StronglySorted (sorted_keeping R prior) l → Forall (prior x) l →
  StronglySorted (sorted_keeping R prior) (insert_sorted R x l).
Proof.
  induction l as [|y l IH]; intros Hs Hp; simpl.
  - repeat constructor.
  - apply StronglySorted_inv in Hs as [Hs Hy].
    apply Forall_cons in Hp as [Hxy Hp].
    case_decide as HR.
    + constructor; [by constructor|]. constructor; [by split|].
      rewrite Forall_forall in Hy, Hp. apply Forall_forall. intros z Hz.
      split; [|intros _; by apply Hp].
      trans y; [done|]. by apply Hy.
    + constructor; [by apply IH|].
      rewrite insert_sorted_Permutation. constructor; [|done].
      split; [|done]. by destruct (total R x y).
Qed.

Lemma sort_values_keeping l :
  StronglySorted prior l → StronglySorted (sorted_keeping R prior) (sort_values R l).
Proof.
  induction l as [|x l IH]; intros Hs; simpl; [constructor|].
  apply StronglySorted_inv in Hs as [Hs Hx].
  apply insert_sorted_keeping; [by apply IH|].
  by rewrite sort_values_Permutation.
Qed.
End sort_facts.

Lemma StronglySorted_weaken {A} (R1 R2 : relation A) (l : list A) :
  (∀ x y, x ∈ l → y ∈ l → R1 x y → R2 x y) →
  StronglySorted R1 l → StronglySorted R2 l.
Proof.
  intros HR Hs. induction Hs as [|x l Hs IH Hx]; constructor.
  - apply IH. intros y z ? ?. apply HR; by right.
  - rewrite Forall_forall in Hx. apply Forall_forall. intros y Hy.
    apply HR; [left|by right|by apply Hx].
Qed.

Lemma StronglySorted_take {A} (R : relation A) (l : list A) n :
  StronglySorted R l → StronglySorted R (take n l).
Proof.
  intros Hs. rewrite <- (take_drop n l) in Hs.
  by apply StronglySorted_app_1_l in Hs.
Qed.

(** ** Distinct values and their counts *)

Lemma first_pos_cons_ne x v s : x ≠ v → first_pos v (x :: s) = S (first_pos v s).
Proof. intros Hne. simpl. by rewrite decide_False. Qed.

(** [unique] lists the values by first position. *)
Lemma keep_first_first_pos (F : cell → Prop) `{!∀ x, Decision (F x)} seen s :
  StronglySorted (λ a b, first_pos a s < first_pos b s)
    (keep_first id seen (filter F s)).
Proof.
  revert seen. induction s as [|x s IH]; intros seen; [constructor|].
  assert (∀ seen', (x ∈ seen' ∨ ¬ F x) →
    StronglySorted (λ a b, first_pos a (x :: s) < first_pos b (x :: s))
      (keep_first id seen' (filter F s))) as Htail.
  { intros seen' Hx. eapply StronglySorted_weaken; [|apply IH].
    intros a b Ha Hb Hab.
    apply keep_first_elem_of in Ha as [[Fa _]%list_elem_of_filter Ha].
    apply keep_first_elem_of in Hb as [[Fb _]%list_elem_of_filter Hb].
    unfold id in *. simpl in Hab.
    rewrite !first_pos_cons_ne; [lia|..]; intros ->; tauto. }
  rewrite filter_cons. case_decide as HF; [|apply Htail; by right].
  cbn [keep_first id]. case_decide as Hseen; [apply Htail; by left|].
  constructor; [apply Htail; left; left|].
  apply Forall_forall. intros a Ha.
  apply keep_first_elem_of in Ha as [_ Ha]. simpl in Ha.
  rewrite (first_pos_cons_ne x a) by (intros Heq; apply Ha; rewrite Heq; left).
  simpl. rewrite decide_True by done. lia.
Qed.

Lemma unique_NoDup s : NoDup (unique s).
Proof.
  unfold unique. generalize (keep_first_NoDup (@id cell) [] s).
  by rewrite list_fmap_id.
Qed.

Lemma elem_of_unique s v : v ∈ unique s ↔ v ∈ s.
Proof.
  unfold unique. generalize (keep_first_keys (@id cell) [] s v).
  rewrite !list_fmap_id. intros ->. split; [tauto|].
  intros ?. split; [done|apply not_elem_of_nil].
Qed.

Lemma occurrences_pos v s : v ∈ s → 0 < occurrences v s.
Proof.
  intros Hin. unfold occurrences.
  assert (v ∈ filter (λ x, x = v) s) as Hf by (by apply list_elem_of_filter).
  destruct (filter (λ x, x = v) s); [by apply elem_of_nil in Hf|simpl; lia].
Qed.

Lemma occurrences_filter (F : cell → Prop) `{!∀ x, Decision (F x)} v s :
  F v → occurrences v (filter F s) = occurrences v s.
Proof.
  intros Fv. unfold occurrences. rewrite list_filter_filter. f_equal.
  apply list_filter_iff. intros x. split; [tauto|]. by intros ->.
Qed.

Lemma length_filter_split {A} (P : A → Prop) `{!∀ x, Decision (P x)} (l : list A) :
  length l = length (filter P l) + length (filter (λ x, ¬ P x) l).
Proof. by rewrite <- length_app, filter_app_complement. Qed.

(** Counts of distinct values add up to no more than the length. *)
Lemma sum_occurrences_le (u s : list cell) :
  NoDup u → sum_list ((λ v, occurrences v s) <$> u) ≤ length s.
Proof.
  revert s. induction u as [|v u IH]; intros s Hnd; simpl; [lia|].
  apply NoDup_cons in Hnd as [Hv Hnd].
  rewrite (length_filter_split (λ x, x = v) s).
  apply Nat.add_le_mono; [done|].
  etrans; [|apply (IH (filter (λ x, x ≠ v) s) Hnd)].
  apply Nat.eq_le_incl. f_equal. apply list_fmap_ext.
  intros i w Hw. symmetry. apply occurrences_filter.
  intros ->. apply Hv. by eapply list_elem_of_lookup_2.
Qed.

Lemma sum_list_take_le (l : list nat) n : sum_list (take n l) ≤ sum_list l.
Proof.
  rewrite <- (take_drop n l) at 2. rewrite sum_list_with_app. lia.
Qed.

(** ** Frequency tables *)

#[global] Instance count_ge_total : Total count_ge.
Proof. intros p q. unfold count_ge. lia. Qed.
#[global] Instance count_ge_trans : Transitive count_ge.
Proof. intros p q r. unfold count_ge. lia. Qed.

Lemma value_counts_Permutation s :
  value_counts s
  ≡ₚ (λ v, (v, occurrences v (filter (λ x, notna x) s)))
       <$> unique (filter (λ x, notna x) s).
Proof. unfold value_counts. apply sort_values_Permutation. Qed.

Lemma value_counts_elem_of s p :
  p ∈ value_counts s →
  p.1 ≠ NA ∧ p.1 ∈ s ∧ p.2 = occurrences p.1 s ∧ 0 < p.2.
Proof.
  rewrite value_counts_Permutation.
  intros (v & -> & Hv)%list_elem_of_fmap. simpl.
  rewrite elem_of_unique in Hv. pose proof Hv as Hv'.
  apply list_elem_of_filter in Hv as [Hna Hv].
  split_and!; [by intros ->|done| |by apply occurrences_pos].
  by apply (occurrences_filter (λ x, notna x)).
Qed.

Lemma value_counts_values_NoDup s : NoDup (value_counts s).*1.
Proof.
  rewrite value_counts_Permutation, <- list_fmap_compose.
  simpl. rewrite list_fmap_id. apply unique_NoDup.
Qed.

Lemma value_counts_sum s : sum_list (value_counts s).*2 ≤ length s.
Proof.
  rewrite value_counts_Permutation, <- list_fmap_compose.
  etrans; [apply sum_occurrences_le, unique_NoDup|]. apply length_filter.
Qed.

Lemma value_counts_sorted s : StronglySorted (count_order s) (value_counts s).
Proof.
  unfold value_counts.
  eapply StronglySorted_weaken;
    [|apply (sort_values_keeping count_ge
               (λ p q, first_pos p.1 s < first_pos q.1 s))].
  - intros p q _ _ [Hpq Hqp]. split; [done|].
    intros Heq. apply Hqp. unfold count_ge. lia.
  - apply (StronglySorted_fmap _
             (λ a b, first_pos a s < first_pos b s)); [done|].
    apply (keep_first_first_pos (λ x, notna x)).
Qed.

Lemma fmap_filter_comm {A B} (f : A → B) (P : B → Prop)
    `{!∀ y, Decision (P y)} (l : list A) :
  f <$> filter (λ x, P (f x)) l = filter P (f <$> l).
Proof.
  induction l as [|x l IH]; [done|].
  rewrite fmap_cons, !filter_cons. case_decide; [rewrite fmap_cons|]; by rewrite IH.
Qed.

Lemma value_counts_dropna s :
  value_counts (filter (λ x, notna x) s) = value_counts s.
Proof. unfold value_counts. by rewrite filter_idemp. Qed.

Lemma getitem_present df c :
  c ∈ columns df → getitem df c = Ok (cell_at (columns df) c <$> rows df).
Proof.
  intros Hc. unfold getitem.
  by rewrite (proj2 (has_column_spec df c) Hc).
Qed.

Lemma top_n_frequency_Ok df column n :
  top_n_frequency df column n
  = Ok (if has_column df column
        then take n (value_counts (cell_at (columns df) column <$> rows df))
        else []).
Proof.
  unfold top_n_frequency, getitem. by destruct (has_column df column).
Qed.

(** C5: the frequency table of a column has at most [n] entries; its counts
    fall, and of two values with the same count the one met first in the
    column comes first; every entry is a value of the column with the number
    of rows that carry it; and the counts add up to no more than the number
    of rows. *)
Theorem top_n_frequency_spec (df : DataFrame) (column : string) (n : nat) :
  ∃ out, top_n_frequency df column n = Ok out
       ∧ length out ≤ n
       ∧ StronglySorted
           (count_order (cell_at (columns df) column <$> rows df)) out
       ∧ (∀ v k, (v, k) ∈ out →
            k = occurrences v (cell_at (columns df) column <$> rows df)
            ∧ 0 < k)
       ∧ NoDup out.*1
       ∧ sum_list out.*2 ≤ len df.
Proof.
  eexists. split; [apply top_n_frequency_Ok|].
  destruct (has_column df column).
  - set (s := cell_at (columns df) column <$> rows df). split_and!.
    + rewrite length_take. lia.
    + apply StronglySorted_take, value_counts_sorted.
    + intros v k Hin. apply (subseteq_take n) in Hin.
      apply value_counts_elem_of in Hin. simpl in Hin. tauto.
    + eapply sublist_NoDup; [apply value_counts_values_NoDup|].
      apply fmap_sublist, sublist_take.
    + rewrite fmap_take. etrans; [apply sum_list_take_le|].
      etrans; [apply value_counts_sum|]. unfold s, len.
      by rewrite length_fmap.
  - split_and!; simpl; [lia|constructor| |constructor|lia].
    intros v k Hin. by apply elem_of_nil in Hin.
Qed.

(** ** The order of group keys *)

#[global] Instance cell_le_total : Total cell_le.
Proof.
  intros [x|s|] [y|t|]; simpl; try tauto.
  - apply (total Qcle).
  - apply (total String.le).
Qed.

#[global] Instance cell_le_trans : Transitive cell_le.
Proof.
  intros [x|s|] [y|t|] [z|u|]; simpl; try tauto.
  - apply (transitivity (R := Qcle)).
  - apply (transitivity (R := String.le)).
Qed.

#[global] Instance cell_le_antisym : AntiSymm (=) cell_le.
Proof.
  intros [x|s|] [y|t|]; simpl; try tauto.
  - intros ? ?. f_equal. by apply (anti_symm Qcle).
  - intros ? ?. f_equal. by apply (anti_symm String.le).
Qed.

Lemma StronglySorted_True {A} (l : list A) : StronglySorted (λ _ _, True) l.
Proof.
  induction l; constructor; [done|]. by apply Forall_forall.
Qed.

Lemma group_keys_Permutation keys :
  group_keys keys ≡ₚ unique (filter (λ x, notna x) keys).
Proof. apply sort_values_Permutation. Qed.

Lemma elem_of_group_keys keys k : k ∈ group_keys keys ↔ k ≠ NA ∧ k ∈ keys.
Proof.
  rewrite group_keys_Permutation, elem_of_unique, list_elem_of_filter.
  unfold notna. destruct k; simpl; split; try tauto; intros [? ?]; by split.
Qed.

Lemma group_keys_NoDup keys : NoDup (group_keys keys).
Proof. rewrite group_keys_Permutation. apply unique_NoDup. Qed.

Lemma group_keys_sorted keys : StronglySorted cell_lt (group_keys keys).
Proof.
  assert (StronglySorted cell_le (group_keys keys)) as Hle.
  { eapply StronglySorted_weaken;
      [|apply (sort_values_keeping cell_le (λ _ _, True)), StronglySorted_True].
    by intros x y _ _ [? _]. }
  pose proof (group_keys_NoDup keys) as Hnd.
  induction Hle as [|k ks Hs IH Hk]; constructor.
  - apply IH. by apply NoDup_cons in Hnd as [_ ?].
  - apply NoDup_cons in Hnd as [Hnin _].
    rewrite Forall_forall in Hk. apply Forall_forall. intros k' Hk'.
    split; [by apply Hk|]. by intros ->.
Qed.

Lemma group_keys_dropna keys :
  group_keys (filter (λ x, notna x) keys) = group_keys keys.
Proof. unfold group_keys. by rewrite filter_idemp. Qed.

(** ** Running a fallible function over a list *)

Section mapM_result.
Context {A B : Type} (f : A → result B).

Lemma mapM_result_cons x l :
  mapM f (x :: l) = y ← f x; k ← mapM f l; Ok (y :: k).
Proof. done. Qed.

Lemma mapM_result_ext (g : A → result B) l :
  (∀ x, x ∈ l → f x = g x) → mapM f l = mapM g l.
Proof.
  induction l as [|x l IH]; intros Hfg; [done|].
  rewrite !mapM_result_cons, (Hfg x) by left.
  rewrite IH; [done|]. intros y ?. apply Hfg. by right.
Qed.

Lemma mapM_result_Ok (h : A → B) l :
  (∀ x, x ∈ l → f x = Ok (h x)) → mapM f l = Ok (h <$> l).
Proof.
  induction l as [|x l IH]; intros Hf; [done|].
  rewrite mapM_result_cons, (Hf x) by left.
  rewrite IH; [done|]. intros y ?. apply Hf. by right.
Qed.

Lemma mapM_result_inv l k :
  mapM f l = Ok k → Forall2 (λ x y, f x = Ok y) l k.
Proof.
  revert k. induction l as [|x l IH]; intros k.
  - intros [= <-]. constructor.
  - rewrite mapM_result_cons. destruct (f x) as [y|] eqn:Hx; [|done].
    simpl. destruct (mapM f l) as [k'|]; [|done].
    intros [= <-]. constructor; [done|]. by apply IH.
Qed.
End mapM_result.

(** ** Grouped means *)

Lemma numbers_not_text s :
  Forall not_text s → numbers s = Ok (number_values s).
Proof.
  induction 1 as [|c s Hc Hs IH]; [done|].
  unfold number_values in *. destruct c as [q|t|]; simpl in *.
  - by rewrite IH.
  - done.
  - done.
Qed.

Lemma group_values_not_text cols g v rs k :
  Forall (λ r, not_text (cell_at cols v r)) rs →
  Forall not_text (group_values cols g v rs k).
Proof.
  intros Hrs. unfold group_values. apply Forall_fmap.
  rewrite Forall_forall in Hrs. apply Forall_forall.
  intros r [_ Hr]%list_elem_of_filter. by apply Hrs.
Qed.

Lemma groupby_mean_numeric df g v :
  g ∈ columns df → v ∈ columns df →
  Forall (λ r, not_text (cell_at (columns df) v r)) (rows df) →
  groupby_mean df g v
  = Ok ((λ k, (k, mean_of (number_values
                             (group_values (columns df) g v (rows df) k))))
          <$> group_keys (cell_at (columns df) g <$> rows df)).
Proof.
  intros Hg Hv Hnum. unfold groupby_mean.
  rewrite !getitem_present by done. simpl.
  apply mapM_result_Ok. intros k _. unfold series_mean.
  by rewrite numbers_not_text by by apply group_values_not_text.
Qed.

(** Whenever a grouped mean comes out, its keys are the group keys. *)
Lemma groupby_mean_keys df g v out :
  groupby_mean df g v = Ok out →
  out.*1 = group_keys (cell_at (columns df) g <$> rows df).
Proof.
  unfold groupby_mean, getitem.
  destruct (has_column df g); [|done]. destruct (has_column df v); [|done].
  simpl. intros Hout%mapM_result_inv.
  induction Hout as [|k [k' m] ks out Hk _ IH]; [done|].
  rewrite fmap_cons, IH. f_equal. simpl.
  destruct (series_mean _); simpl in Hk; by inversion Hk.
Qed.

(** The rows whose key is missing belong to no group. *)
Lemma group_values_drop_missing cols g v rs k :
  k ≠ NA →
  group_values cols g v (filter (λ r, notna (cell_at cols g r)) rs) k
  = group_values cols g v rs k.
Proof.
  intros Hk. unfold group_values. f_equal.
  rewrite list_filter_filter. apply list_filter_iff.
  intros r. split; [tauto|]. intros ->. split; [done|]. by destruct k.
Qed.

Lemma drop_missing_series df c :
  cell_at (columns df) c <$> rows (drop_missing c df)
  = filter (λ x, notna x) (cell_at (columns df) c <$> rows df).
Proof.
  unfold drop_missing, select_rows. simpl.
  exact (fmap_filter_comm (cell_at (columns df) c) (λ x, Is_true (notna x))
           (rows df)).
Qed.

Lemma grouped_mean_drop_missing df g v :
  grouped_mean (drop_missing g df) g v = grouped_mean df g v.
Proof.
  unfold grouped_mean.
  replace (has_column (drop_missing g df) g) with (has_column df g) by done.
  destruct (has_column df g) eqn:Hg; [|done].
  unfold groupby_mean, getitem.
  replace (has_column (drop_missing g df) g) with (has_column df g) by done.
  replace (has_column (drop_missing g df) v) with (has_column df v) by done.
  rewrite Hg. simpl. destruct (has_column df v); [|done]. simpl.
  change (columns (drop_missing g df)) with (columns df).
  rewrite drop_missing_series, group_keys_dropna.
  apply mapM_result_ext. intros k [Hk _]%elem_of_group_keys.
  unfold drop_missing, select_rows. simpl.
  by rewrite group_values_drop_missing.
Qed.

Lemma top_n_frequency_drop_missing df column n :
  top_n_frequency (drop_missing column df) column n
  = top_n_frequency df column n.
Proof.
  rewrite !top_n_frequency_Ok.
  replace (has_column (drop_missing column df) column)
    with (has_column df column) by done.
  change (columns (drop_missing column df)) with (columns df).
  by rewrite drop_missing_series, value_counts_dropna.
Qed.

(** C4 (as amended): on a table that has the group column and a value
    column free of text, the grouped mean has exactly one row for every
    distinct non-missing group key, that row carries the mean of the
    non-missing values of the group (NaN when it has none), and the rows
    stand in rising order of the key. *)
Theorem grouped_mean_spec (df : DataFrame) (group_column value_column : string) :
  group_column ∈ columns df →
  value_column ∈ columns df →
  Forall (λ r, not_text (cell_at (columns df) value_column r)) (rows df) →
  ∃ out, grouped_mean df group_column value_column = Ok out
       ∧ StronglySorted cell_lt out.*1
       ∧ NoDup out.*1
       ∧ (∀ k, k ∈ out.*1
               ↔ k ≠ NA ∧ k ∈ cell_at (columns df) group_column <$> rows df)
       ∧ (∀ k m, (k, m) ∈ out →
            m = mean_of (number_values
                           (group_values (columns df) group_column
                              value_column (rows df) k))).
Proof.
  intros Hg Hv Hnum. eexists. split.
  { unfold grouped_mean. rewrite (proj2 (has_column_spec _ _) Hg).
    by apply groupby_mean_numeric. }
  rewrite <- list_fmap_compose. simpl. rewrite list_fmap_id. split_and!.
  - apply group_keys_sorted.
  - apply group_keys_NoDup.
  - intros k. apply elem_of_group_keys.
  - intros k m (k' & [= -> ->] & _)%list_elem_of_fmap. done.
Qed.

(** C4 as stated does not hold: on [price_example] the grouped mean comes
    out, but its rows are not in the order in which the keys first occur in
    the table (key 2 occurs first and is listed last). *)
Lemma grouped_mean_order_counterexample :
  ∃ out, grouped_mean price_example "price_range" "aggregate_rating" = Ok out
       ∧ ¬ StronglySorted
             (λ a b,
                first_pos a (cell_at (columns price_example) "price_range"
                               <$> rows price_example)
                < first_pos b (cell_at (columns price_example) "price_range"
                                 <$> rows price_example))
             out.*1.
Proof.
  eexists. split; [vm_compute; reflexivity|].
  intros Hs. apply StronglySorted_inv in Hs as [_ Hs].
  apply Forall_cons in Hs as [Hlt _]. vm_compute in Hlt. lia.
Qed.

Lemma grouped_mean_spec_witness :
  ∃ out, grouped_mean price_example "price_range" "aggregate_rating" = Ok out
       ∧ StronglySorted cell_lt out.*1
       ∧ NoDup out.*1
       ∧ (∀ k, k ∈ out.*1
               ↔ k ≠ NA
                 ∧ k ∈ cell_at (columns price_example) "price_range"
                         <$> rows price_example)
       ∧ (∀ k m, (k, m) ∈ out →
            m = mean_of (number_values
                           (group_values (columns price_example) "price_range"
                              "aggregate_rating" (rows price_example) k))).
Proof.
  apply (grouped_mean_spec price_example "price_range" "aggregate_rating").
  - simpl. left.
  - simpl. right. left.
  - simpl. repeat constructor.
Defined.

(** C10: rows with a missing cell in the keyed column do not reach the
    derived tables.  The frequency table has no entry for the missing value
    and is the same as on the table without those rows, so they add to no
    count; the grouped mean, when it comes out, has no group for the missing
    key, and it too is the same as on the table without those rows. *)
Theorem missing_keys_excluded (df : DataFrame) (column : string) (n : nat)
    (group_column value_column : string) :
  (∃ out, top_n_frequency df column n = Ok out ∧ NA ∉ out.*1)
  ∧ top_n_frequency (drop_missing column df) column n
    = top_n_frequency df column n
  ∧ match grouped_mean df group_column value_column with
    | Ok out => NA ∉ out.*1
    | Raise _ => True
    end
  ∧ grouped_mean (drop_missing group_column df) group_column value_column
    = grouped_mean df group_column value_column.
Proof.
  split_and!.
  - eexists. split; [apply top_n_frequency_Ok|].
    destruct (has_column df column); [|apply not_elem_of_nil].
    intros ([v k] & Hv & Hin)%list_elem_of_fmap. simpl in Hv. subst v.
    apply (subseteq_take n) in Hin.
    by apply value_counts_elem_of in Hin as [? _].
  - apply top_n_frequency_drop_missing.
  - unfold grouped_mean. destruct (has_column df group_column).
    + destruct (groupby_mean df group_column value_column) as [out|] eqn:Hout;
        [|done].
      rewrite (groupby_mean_keys _ _ _ _ Hout), elem_of_group_keys. tauto.
    + apply not_elem_of_nil.
  - apply grouped_mean_drop_missing.
Qed.

(** ** The object behind [df] *)

Lemma update_inplace_Ok l method (σ : gmap loc DataFrame) d d' :
  σ !! l = Some d → method d = Ok d' →
  update_inplace l method σ = Ok (<[l := d']> σ).
Proof.
  intros Hl Hm. unfold update_inplace, deref. rewrite Hl. simpl.
  by rewrite Hm.
Qed.

Lemma deref_Ok (σ : gmap loc DataFrame) l d : σ !! l = Some d → deref σ l = Ok d.
Proof. intros Hl. unfold deref. by rewrite Hl. Qed.

(** The cleaning block overwrites the object [df] names with its cleaned
    contents. *)
Lemma run_clean_inplace st d :
  store st !! var_df st = Some d →
  run_clean st
  = Ok (mkPyState
          (<[var_df st := mkDataFrame (columns d)
                            (cleaned_rows key_column required_columns d)]>
             (store st))
          (var_df st)).
Proof.
  intros Hd. unfold run_clean. rewrite (deref_Ok _ _ _ Hd). simpl.
  pose proof (clean_by_Ok key_column required_columns d) as Hclean.
  unfold clean_by in Hclean.
  destruct (has_column d key_column) eqn:Hkey.
  - destruct (drop_duplicates key_column d) as [d1|] eqn:Hd1; [|done].
    simpl in Hclean.
    rewrite (update_inplace_Ok _ _ _ _ _ Hd Hd1). simpl.
    rewrite (deref_Ok _ _ d1) by apply lookup_insert_eq. simpl.
    rewrite (update_inplace_Ok _ _ _ d1 _ (lookup_insert_eq _ _ _) Hclean).
    simpl. by rewrite insert_insert_eq.
  - simpl in *. rewrite (deref_Ok _ _ _ Hd). simpl.
    by rewrite (update_inplace_Ok _ _ _ _ _ Hd Hclean).
Qed.

(** C3 as stated does not hold: cleaning the freshly loaded
    [duplicate_example] leaves [df] bound to the same object, and that
    object no longer holds the loaded table. *)
Lemma run_clean_mutates_counterexample :
  ∃ st', run_clean (run_load duplicate_example) = Ok st'
       ∧ var_df st' = var_df (run_load duplicate_example)
       ∧ store st' !! var_df (run_load duplicate_example)
         ≠ store (run_load duplicate_example)
             !! var_df (run_load duplicate_example).
Proof.
  eexists. split; [by apply run_clean_inplace|].
  split; [done|]. simpl. rewrite lookup_insert_eq.
  unfold run_load. simpl. rewrite lookup_singleton_eq.
  intros Heq. apply (f_equal (fmap len)) in Heq. vm_compute in Heq.
  discriminate.
Qed.

(** ** Metrics *)

(** Whenever the metrics come out, the count is the number of rows. *)
Lemma compute_metrics_row_count df m :
  compute_metrics df = Ok m → total_restaurants m = len df.
Proof.
  unfold compute_metrics.
  destruct (getitem df "aggregate_rating"); [|done]. simpl.
  destruct (series_mean _); [|done]. simpl.
  destruct (if has_column df "votes" then _ else _); [|done]. simpl.
  destruct (if has_column df "average_cost_for_two" then _ else _); [|done].
  simpl. by intros [= <-].
Qed.

(** The rating is read with no look at the columns first. *)
Lemma compute_metrics_rating_absent df :
  "aggregate_rating" ∉ columns df →
  compute_metrics df = Raise (KeyError "aggregate_rating").
Proof.
  intros Hc. unfold compute_metrics, getitem.
  destruct (has_column df "aggregate_rating") eqn:Hh; [|done].
  by apply has_column_spec in Hh.
Qed.

(** With no rows, the rating is NaN; the mean cost, when that column is
    there, is NaN too and [int] rejects it. *)
Lemma compute_metrics_no_rows cols :
  "aggregate_rating" ∈ cols →
  compute_metrics (mkDataFrame cols [])
  = if bool_decide ("average_cost_for_two" ∈ cols)
    then Raise (ValueError "cannot convert float NaN to integer")
    else Ok (mkMetrics 0 None 0 0).
Proof.
  intros Hc. unfold compute_metrics, getitem, has_column. simpl.
  rewrite (bool_decide_eq_true_2 _ Hc). simpl.
  destruct (bool_decide ("votes" ∈ cols));
    by destruct (bool_decide ("average_cost_for_two" ∈ cols)).
Qed.

(** C1, at the failing inputs: on a table with no rating column the metrics
    raise [KeyError] instead of leaving the rating mean out, and on a table
    with the cost column and no rows they raise [ValueError]. *)
Theorem compute_metrics_raises :
  compute_metrics no_rating_example = Raise (KeyError "aggregate_rating")
  ∧ compute_metrics empty_example
    = Raise (ValueError "cannot convert float NaN to integer").
Proof. split; reflexivity. Qed.

(** ** Chart inputs *)

(** The guarded builders give nothing on a table without their column. *)
Lemma guarded_builders_absent df :
  ("city" ∉ columns df → top_cities df = Ok [])
  ∧ ("cuisines" ∉ columns df → top_cuisines df = Ok [])
  ∧ ("price_range" ∉ columns df → price_vs_rating df = Ok [])
  ∧ ("votes" ∉ columns df → votes_vs_rating df = Ok None)
  ∧ ("average_cost_for_two" ∉ columns df → cost_vs_rating df = Ok None)
  ∧ ("latitude" ∉ columns df → geo_points df = Ok None).
Proof.
  unfold top_cities, top_cuisines, price_vs_rating, votes_vs_rating,
    cost_vs_rating, geo_points, top_n_frequency, grouped_mean.
  split_and!; intros Hc;
    match goal with
    | H : ?c ∉ columns df |- _ =>
        destruct (has_column df c) eqn:Hh;
        [by apply has_column_spec in Hh|done]
    end.
Qed.

(** The histogram is built with no look at the columns first. *)
Lemma rating_histogram_absent df :
  "aggregate_rating" ∉ columns df →
  rating_histogram df = Raise (ValueError "aggregate_rating").
Proof.
  intros Hc. unfold rating_histogram, px_column.
  destruct (has_column df "aggregate_rating") eqn:Hh; [|done].
  by apply has_column_spec in Hh.
Qed.

(** C2, at the failing input: on a table with no rating column the rating
    histogram raises instead of giving an empty result, and so do the
    votes-against-rating scatter and the mean rating by price range, whose
    guards look only at their other column. *)
Theorem builders_raise_without_rating :
  rating_histogram no_rating_example = Raise (ValueError "aggregate_rating")
  ∧ votes_vs_rating no_rating_example = Raise (ValueError "aggregate_rating")
  ∧ price_vs_rating no_rating_example = Raise (KeyError "aggregate_rating").
Proof. split_and!; reflexivity. Qed.

(** ** The scenarios of the specification *)

Example clean_scenario :
  clean scenario_example
  = Ok (mkDataFrame ["city"; "aggregate_rating"; "votes"]
          [[Str "A"; num 4; num 10]; [Str "B"; num 3; NA]]).
Proof. reflexivity. Qed.

Example compute_metrics_scenario :
  (d ← clean scenario_example;
   m ← compute_metrics d;
   Ok (total_restaurants m, fraction (average_rating m), total_votes m,
       avg_cost_for_two m))
  = Ok (2, Some (7 # 2)%Q, 10%Z, 0%Z).
Proof. reflexivity. Qed.

Example top_n_frequency_scenario :
  top_n_frequency letters_example "city" 2 = Ok [(Str "C", 3); (Str "A", 2)].
Proof. reflexivity. Qed.

Example grouped_mean_price_example :
  ∃ out, grouped_mean price_example "price_range" "aggregate_rating" = Ok out
       ∧ (λ p : cell * pyfloat, (p.1, fraction p.2)) <$> out
         = [(num 1, Some (3 # 1)%Q); (num 2, Some (4 # 1)%Q)].
Proof. eexists. split; [vm_compute; reflexivity|reflexivity]. Qed.

(** ** Column names after loading *)

Ltac each_code_point a :=
  destruct a as [[] [] [] [] [] [] [] []]; vm_compute; try reflexivity;
  try discriminate.

Lemma lower_char_idemp a : lower_char (lower_char a) = lower_char a.
Proof. each_code_point a. Qed.

Lemma lower_char_not_upper a : is_upper (lower_char a) = false.
Proof. each_code_point a. Qed.

Lemma is_space_lower_char a : is_space (lower_char a) = is_space a.
Proof. each_code_point a. Qed.

Lemma underscore_char_not_space a : is_space a = false →
  is_space (underscore_char a) = false.
Proof. each_code_point a. Qed.

Lemma underscore_char_no_blank a : underscore_char a ≠ " "%char.
Proof. each_code_point a. Qed.

Lemma is_upper_underscore_char a :
  is_upper (underscore_char a) = is_upper a.
Proof. each_code_point a. Qed.

Lemma normalize_char_idemp a :
  underscore_char (lower_char (underscore_char (lower_char a)))
  = underscore_char (lower_char a).
Proof. each_code_point a. Qed.

Lemma lstrip_head l :
  match lstrip l with [] => True | a :: _ => is_space a = false end.
Proof.
  induction l as [|a l IH]; simpl; [done|].
  destruct (is_space a) eqn:Ha; [done|]. done.
Qed.

Lemma lstrip_fixed l :
  match l with [] => True | a :: _ => is_space a = false end → lstrip l = l.
Proof. destruct l as [|a l]; simpl; [done|]. by intros ->. Qed.

Lemma rstrip_idemp l : rstrip (rstrip l) = rstrip l.
Proof.
  induction l as [|a l IH]; simpl; [done|].
  destruct (rstrip l) as [|b t] eqn:Ht.
  - destruct (is_space a) eqn:Ha; simpl; [done|]. by rewrite Ha.
  - cbn [rstrip] in *. fold (rstrip t) in *. by rewrite IH.
Qed.

Lemma rstrip_head l :
  match l with [] => True | a :: _ => is_space a = false end →
  match rstrip l with [] => True | a :: _ => is_space a = false end.
Proof.
  destruct l as [|a l]; simpl; [done|]. intros Ha.
  destruct (rstrip l); by rewrite ?Ha.
Qed.

Lemma strip_is_stripped l : is_stripped (strip l).
Proof.
  unfold is_stripped, strip. split; [|apply rstrip_idemp].
  apply lstrip_fixed, rstrip_head, lstrip_head.
Qed.

Lemma length_lstrip l : length (lstrip l) ≤ length l.
Proof.
  induction l as [|a l IH]; simpl; [done|].
  destruct (is_space a); simpl; lia.
Qed.

Lemma length_rstrip l : length (rstrip l) ≤ length l.
Proof.
  induction l as [|a l IH]; simpl; [done|].
  destruct (rstrip l); [destruct (is_space a)|]; simpl in *; lia.
Qed.

Lemma fmap_is_stripped (f : ascii → ascii) l :
  (∀ a, is_space a = false → is_space (f a) = false) →
  is_stripped l → is_stripped (f <$> l).
Proof.
  intros Hf [Hl Hr]. split.
  - apply lstrip_fixed. destruct l as [|a l]; [done|].
    rewrite fmap_cons. apply Hf. simpl in Hl.
    destruct (is_space a) eqn:Ha; [|done].
    pose proof (length_lstrip l) as Hlen. rewrite Hl in Hlen. simpl in Hlen. lia.
  - clear Hl. induction l as [|a l IH]; [done|].
    rewrite fmap_cons. simpl in *.
    destruct (rstrip l) as [|b t] eqn:Ht.
    + destruct (is_space a) eqn:Ha; [done|].
      injection Hr as <-. simpl. by rewrite (Hf a Ha).
    + injection Hr as Hr. rewrite (IH Hr). by rewrite <- Hr.
Qed.

Lemma normalize_chars_is_stripped l : is_stripped (normalize_chars l).
Proof.
  unfold normalize_chars.
  apply fmap_is_stripped; [apply underscore_char_not_space|].
  apply fmap_is_stripped; [|apply strip_is_stripped].
  intros a. by rewrite is_space_lower_char.
Qed.

Lemma normalize_chars_idemp l :
  normalize_chars (normalize_chars l) = normalize_chars l.
Proof.
  pose proof (normalize_chars_is_stripped l) as [Hl Hr].
  unfold normalize_chars at 1. unfold strip. rewrite Hl, Hr.
  unfold normalize_chars. rewrite <- !list_fmap_compose.
  apply list_fmap_ext. intros _ a _. apply normalize_char_idemp.
Qed.

Lemma normalize_chars_shape l :
  Forall (λ a, a ≠ " "%char ∧ is_upper a = false) (normalize_chars l).
Proof.
  unfold normalize_chars. rewrite <- list_fmap_compose.
  apply Forall_fmap, Forall_forall. intros a _. simpl.
  split; [apply underscore_char_no_blank|].
  by rewrite is_upper_underscore_char, lower_char_not_upper.
Qed.

Lemma length_normalize_chars l : length (normalize_chars l) ≤ length l.
Proof.
  unfold normalize_chars, strip. rewrite !length_fmap.
  etrans; [apply length_rstrip|apply length_lstrip].
Qed.

Lemma normalize_column_chars s :
  String.list_ascii_of_string (normalize_column s)
  = normalize_chars (String.list_ascii_of_string s).
Proof.
  unfold normalize_column. apply String.list_ascii_of_string_of_list_ascii.
Qed.

Lemma normalize_column_idemp s :
  normalize_column (normalize_column s) = normalize_column s.
Proof.
  unfold normalize_column at 1.
  by rewrite normalize_column_chars, normalize_chars_idemp.
Qed.

(** X1: normalising the column names is stable: a name that has been
    stripped, lower-cased and underscored comes out of the same treatment
    unchanged, so loading a frame that was already loaded changes nothing. *)
Theorem load_data_idempotent (csv : DataFrame) (s : string) :
  normalize_column (normalize_column s) = normalize_column s
  ∧ load_data (load_data csv) = load_data csv.
Proof.
  split; [apply normalize_column_idemp|].
  unfold load_data. simpl. f_equal.
  rewrite <- list_fmap_compose. apply list_fmap_ext.
  intros _ c _. apply normalize_column_idemp.
Qed.

(** X2: a loaded frame keeps the rows as read, and each of its column names
    is the normalised header: free of blanks and of upper-case letters, with
    no whitespace at either end, and no longer than the header. *)
Theorem load_data_names (csv : DataFrame) :
  rows (load_data csv) = rows csv
  ∧ Forall2
      (λ header name,
         name = normalize_column header
         ∧ Forall (λ a, a ≠ " "%char ∧ is_upper a = false)
             (String.list_ascii_of_string name)
         ∧ is_stripped (String.list_ascii_of_string name)
         ∧ String.length name ≤ String.length header)
      (columns csv) (columns (load_data csv)).
Proof.
  split; [done|]. unfold load_data. simpl.
  apply Forall2_fmap_r, Forall_Forall2_diag, Forall_forall.
  intros header _. unfold compose. cbv beta.
  rewrite normalize_column_chars. split_and!.
  - done.
  - apply normalize_chars_shape.
  - apply normalize_chars_is_stripped.
  - rewrite <- (String.string_of_list_ascii_of_string header) at 2.
    unfold normalize_column.
    generalize (length_normalize_chars (String.list_ascii_of_string header)).
    generalize (normalize_chars (String.list_ascii_of_string header)).
    generalize (String.list_ascii_of_string header).
    intros l1 l2.
    assert (∀ l, String.length (String.string_of_list_ascii l) = length l)
      as Hlen.
    { induction l as [|a l IH]; simpl; [done|]. by rewrite IH. }
    by rewrite !Hlen.
Qed.

Example normalize_column_restaurant_id :
  normalize_column "  Restaurant ID " = "restaurant_id".
Proof. reflexivity. Qed.

(** ** What cleaning leaves *)

Lemma elem_of_keep_first {A} (key : A → cell) seen l r :
  r ∈ keep_first key seen l
  ↔ ∃ p s, l = p ++ (r :: s) ∧ (key r ∉ seen) ∧ (key r ∉ key <$> p).
Proof.
  split.
  - revert seen. induction l as [|x l IH]; intros seen; simpl.
    { by intros ?%elem_of_nil. }
    case_decide as Hx.
    + intros Hr. apply IH in Hr as (p & s & -> & Hs & Hp). exists (x :: p), s.
      split_and!; [done..|]. rewrite fmap_cons.
      intros [Heq|?]%elem_of_cons; [|done]. apply Hs. by rewrite Heq.
    + intros [->|Hr]%elem_of_cons.
      { exists [], l. split_and!; [done..|]. apply not_elem_of_nil. }
      apply IH in Hr as (p & s & -> & Hs & Hp). exists (x :: p), s.
      split_and!; [done| |].
      * intros ?. apply Hs. by right.
      * rewrite fmap_cons. intros [Heq|?]%elem_of_cons; [|done].
        apply Hs. rewrite Heq. left.
  - intros (p & s & -> & Hs & Hp). revert seen Hs.
    induction p as [|x p IH]; intros seen Hs; simpl.
    + rewrite decide_False by done. left.
    + rewrite fmap_cons in Hp. apply not_elem_of_cons in Hp as [Hne Hp].
      case_decide; [by apply IH|]. right. apply IH; [done|].
      by intros [?|?]%elem_of_cons.
Qed.

(** X3: after cleaning, no row has a missing cell in a required column the
    table has, and when the table has the key column no two rows share a
    key. *)
Theorem clean_postcondition (df : DataFrame) :
  ∃ d, clean df = Ok d
     ∧ Forall (has_required (columns d) required_columns) (rows d)
     ∧ if has_column d key_column
       then NoDup (cell_at (columns d) key_column <$> rows d)
       else True.
Proof.
  unfold clean. eexists. split; [apply clean_by_Ok|]. simpl. split.
  - apply Forall_forall. intros r Hr. unfold cleaned_rows in Hr.
    by apply list_elem_of_filter in Hr as [? _].
  - replace (has_column (mkDataFrame (columns df) _) key_column)
      with (has_column df key_column) by done.
    unfold cleaned_rows. destruct (has_column df key_column); [|done].
    eapply sublist_NoDup; [|apply fmap_sublist, sublist_filter].
    apply keep_first_NoDup.
Qed.

(** X4: duplicates go before incomplete rows do.  On a table with the key
    column, a key value is still there after cleaning exactly when the first
    row that carries it has no missing cell in a required column; a later,
    complete row of the same key does not save it. *)
Theorem clean_key_survives (df : DataFrame) (k : cell) :
  key_column ∈ columns df →
  ∃ d, clean df = Ok d
     ∧ (k ∈ cell_at (columns df) key_column <$> rows d
        ↔ ∃ p r s, rows df = p ++ (r :: s)
                 ∧ cell_at (columns df) key_column r = k
                 ∧ (k ∉ cell_at (columns df) key_column <$> p)
                 ∧ has_required (columns df) required_columns r).
Proof.
  intros Hkey. unfold clean. eexists. split; [apply clean_by_Ok|]. simpl.
  unfold cleaned_rows. rewrite (proj2 (has_column_spec _ _) Hkey).
  rewrite list_elem_of_fmap. split.
  - intros (r & -> & Hr). apply list_elem_of_filter in Hr as [Hreq Hr].
    apply elem_of_keep_first in Hr as (p & s & Hrows & _ & Hp).
    by exists p, r, s.
  - intros (p & r & s & Hrows & <- & Hp & Hreq). exists r. split; [done|].
    apply list_elem_of_filter. split; [done|].
    apply elem_of_keep_first. exists p, s.
    split_and!; [done|apply not_elem_of_nil|done].
Qed.

Lemma clean_key_survives_witness :
  ∃ d, clean duplicate_example = Ok d
     ∧ (num 1 ∈ cell_at (columns duplicate_example) key_column <$> rows d
        ↔ ∃ p r s, rows duplicate_example = p ++ (r :: s)
                 ∧ cell_at (columns duplicate_example) key_column r = num 1
                 ∧ (num 1 ∉ cell_at (columns duplicate_example) key_column
                              <$> p)
                 ∧ has_required (columns duplicate_example)
                     required_columns r).
Proof.
  apply (clean_key_survives duplicate_example (num 1)). simpl. left.
Defined.

(** ** Filtering again *)

Lemma filter_all {A} (P : A → Prop) `{!∀ x, Decision (P x)} (l : list A) :
  Forall P l → filter P l = l.
Proof.
  induction 1 as [|x l Hx Hl IH]; [done|].
  by rewrite filter_cons_True, IH.
Qed.

Lemma filter_filter_comm {A} (P Q : A → Prop)
    `{!∀ x, Decision (P x), !∀ x, Decision (Q x)} (l : list A) :
  filter P (filter Q l) = filter Q (filter P l).
Proof. rewrite !list_filter_filter. apply list_filter_iff. tauto. Qed.

Lemma has_column_select_rows keep df c :
  has_column (select_rows keep df) c = has_column df c.
Proof. done. Qed.

(** X5: filtering is idempotent: filtering the filtered table by the same
    selection changes nothing. *)
Theorem filter_by_values_idempotent (df : DataFrame) (column : string)
    (allowed_values : list cell) :
  filter_by_values (filter_by_values df column allowed_values) column
    allowed_values
  = filter_by_values df column allowed_values.
Proof.
  unfold filter_by_values.
  destruct (has_column df column) eqn:Hc; [|by rewrite Hc].
  destruct allowed_values as [|v vs]; [by rewrite Hc|].
  rewrite has_column_select_rows, Hc.
  unfold select_rows. simpl. f_equal. apply filter_idemp.
Qed.

(** X6: two filters on the same column can be applied in either order, an
    empty selection counting as no filter. *)
Theorem filter_by_values_commute (df : DataFrame) (column : string)
    (first second : list cell) :
  filter_by_values (filter_by_values df column first) column second
  = filter_by_values (filter_by_values df column second) column first.
Proof.
  unfold filter_by_values.
  destruct (has_column df column) eqn:Hc; [|by rewrite !Hc].
  destruct first as [|v vs], second as [|w ws];
    rewrite ?has_column_select_rows, ?Hc; try done.
  unfold select_rows. simpl. f_equal.
  exact (filter_filter_comm
           (λ r, Is_true (isin (w :: ws) (cell_at (columns df) column r)))
           (λ r, Is_true (isin (v :: vs) (cell_at (columns df) column r)))
           (rows df)).
Qed.

(** ** The city widget *)

Lemma forallb_false_elem_of {A} (f : A → bool) (l : list A) :
  forallb f l = false → ∃ x, x ∈ l ∧ f x = false.
Proof.
  induction l as [|x l IH]; simpl; [done|].
  destruct (f x) eqn:Hx; simpl.
  - intros (y & ? & ?)%IH. exists y. split; [by right|done].
  - intros _. exists x. split; [left|done].
Qed.

Lemma py_sorted_spec l :
  Forall (λ x, x ≠ NA) l →
  match py_sorted l with
  | Ok sorted => sorted = sort_values cell_le l
  | Raise e =>
      e = TypeError "'<' not supported between 'str' and 'float'"
      ∧ ∃ q t, Num q ∈ l ∧ Str t ∈ l
  end.
Proof.
  intros Hna. unfold py_sorted.
  destruct (forallb is_num l) eqn:Hnum; [done|].
  destruct (forallb is_text l) eqn:Htext; [done|]. simpl. split; [done|].
  apply forallb_false_elem_of in Hnum as (x & Hx & Hxn).
  apply forallb_false_elem_of in Htext as (y & Hy & Hyt).
  rewrite Forall_forall in Hna.
  destruct x as [q|t|]; [done| |by destruct (Hna _ Hx)].
  destruct y as [q|t'|]; [|done|by destruct (Hna _ Hy)].
  by exists q, t.
Qed.

Lemma unique_notna s : Forall (λ x, x ≠ NA) (unique (filter (λ x, notna x) s)).
Proof.
  apply Forall_forall. intros x Hx. rewrite elem_of_unique in Hx.
  apply list_elem_of_filter in Hx as [Hx _]. by intros ->.
Qed.

(** The options, when they come out, are the group keys of the column. *)
Lemma city_options_Ok df cities :
  city_options df = Ok cities →
  "city" ∈ columns df
  ∧ cities = group_keys (cell_at (columns df) "city" <$> rows df).
Proof.
  unfold city_options, getitem.
  destruct (has_column df "city") eqn:Hc; [|done]. simpl.
  intros Hs. split; [by apply has_column_spec|].
  pose proof (py_sorted_spec _
    (unique_notna (cell_at (columns df) "city" <$> rows df))) as Hspec.
  rewrite Hs in Hspec. done.
Qed.

Lemma cleaned_city_notna df d :
  clean df = Ok d → "city" ∈ columns df →
  Forall (λ r, cell_at (columns d) "city" r ≠ NA) (rows d).
Proof.
  unfold clean. rewrite clean_by_Ok. intros [= <-] Hc. simpl.
  apply Forall_forall. intros r Hr. unfold cleaned_rows in Hr.
  apply list_elem_of_filter in Hr as [Hreq _].
  unfold has_required, required_columns in Hreq.
  apply Forall_cons in Hreq as [Hcity _]. by apply Hcity.
Qed.

Lemma clean_columns df d : clean df = Ok d → columns d = columns df.
Proof. unfold clean. rewrite clean_by_Ok. by intros [= <-]. Qed.

Lemma filter_by_values_all df column allowed :
  Forall (λ r, cell_at (columns df) column r ∈ allowed) (rows df) →
  filter_by_values df column allowed = df.
Proof.
  intros Hall. unfold filter_by_values.
  destruct (has_column df column); [|done].
  destruct allowed as [|v vs]; [done|].
  unfold select_rows. rewrite filter_all; [by destruct df|].
  eapply Forall_impl; [apply Hall|]. intros r Hr. simpl.
  unfold isin. by apply bool_decide_pack.
Qed.

(** X8: picking every city on offer shows the whole cleaned table, and so
    does the default selection when there are at most five cities. *)
Theorem select_all_cities (loaded d : DataFrame) (cities : list cell) :
  clean loaded = Ok d →
  city_options d = Ok cities →
  filter_by_values d "city" cities = d
  ∧ (length cities ≤ 5 →
     filter_by_values d "city" (default_cities cities) = d).
Proof.
  intros Hclean Hopt.
  apply city_options_Ok in Hopt as [Hc ->].
  assert (filter_by_values d "city"
            (group_keys (cell_at (columns d) "city" <$> rows d)) = d) as Hall.
  { apply filter_by_values_all.
    rewrite (clean_columns _ _ Hclean) in Hc.
    pose proof (cleaned_city_notna _ _ Hclean Hc) as Hna.
    rewrite Forall_forall in Hna. apply Forall_forall. intros r Hr.
    apply elem_of_group_keys. split; [by apply Hna|].
    by apply list_elem_of_fmap_2. }
  split; [done|]. intros Hlen. unfold default_cities.
  by rewrite take_ge.
Qed.

Lemma select_all_cities_witness :
  filter_by_values
    (mkDataFrame ["city"; "aggregate_rating"; "votes"]
       [[Str "A"; num 4; num 10]; [Str "B"; num 3; NA]])
    "city" [Str "A"; Str "B"]
  = mkDataFrame ["city"; "aggregate_rating"; "votes"]
      [[Str "A"; num 4; num 10]; [Str "B"; num 3; NA]]
  ∧ (length [Str "A"; Str "B"] ≤ 5 →
     filter_by_values
       (mkDataFrame ["city"; "aggregate_rating"; "votes"]
          [[Str "A"; num 4; num 10]; [Str "B"; num 3; NA]])
       "city" (default_cities [Str "A"; Str "B"])
     = mkDataFrame ["city"; "aggregate_rating"; "votes"]
         [[Str "A"; num 4; num 10]; [Str "B"; num 3; NA]]).
Proof.
  apply (select_all_cities scenario_example); reflexivity.
Defined.

(** X9: a selection made among the options never empties the table: every
    selected city still has a row after the filter. *)
Theorem selected_city_has_rows (df : DataFrame) (cities selected : list cell)
    (v : cell) :
  city_options df = Ok cities →
  selected ⊆ cities →
  v ∈ selected →
  v ∈ cell_at (columns df) "city"
        <$> rows (filter_by_values df "city" selected).
Proof.
  intros Hopt Hsub Hv. apply city_options_Ok in Hopt as [Hc ->].
  pose proof (Hsub _ Hv) as Hin. apply elem_of_group_keys in Hin as [_ Hin].
  apply list_elem_of_fmap in Hin as (r & -> & Hr).
  apply list_elem_of_fmap_2. unfold filter_by_values.
  rewrite (proj2 (has_column_spec _ _) Hc).
  destruct selected as [|w ws]; [done|]. simpl.
  apply list_elem_of_filter. split; [|done].
  unfold isin. by apply bool_decide_pack.
Qed.

Lemma selected_city_has_rows_witness :
  Str "B" ∈ cell_at (columns city_example) "city"
              <$> rows (filter_by_values city_example "city" [Str "B"]).
Proof.
  apply (selected_city_has_rows city_example [Str "A"; Str "B"] [Str "B"]).
  - reflexivity.
  - intros x Hx. apply list_elem_of_singleton in Hx as ->. right. left.
  - left.
Defined.

(** ** More on frequency tables *)

Lemma sum_occurrences_eq (u s : list cell) :
  NoDup u → (∀ x, x ∈ s → x ∈ u) →
  sum_list ((λ v, occurrences v s) <$> u) = length s.
Proof.
  revert s. induction u as [|v u IH]; intros s Hnd Hall; simpl.
  - destruct s as [|x s]; [done|].
    exfalso. apply (not_elem_of_nil x), Hall. left.
  - apply NoDup_cons in Hnd as [Hv Hnd].
    rewrite (length_filter_split (λ x, x = v) s). f_equal.
    rewrite <- (IH (filter (λ x, x ≠ v) s) Hnd).
    + f_equal. apply list_fmap_ext. intros i w Hw.
      symmetry. apply occurrences_filter.
      intros ->. apply Hv. by eapply list_elem_of_lookup_2.
    + intros x [Hne Hx]%list_elem_of_filter.
      apply Hall in Hx. by apply elem_of_cons in Hx as [?|?].
Qed.

Lemma value_counts_total s :
  sum_list (value_counts s).*2 = length (filter (λ x, notna x) s).
Proof.
  rewrite value_counts_Permutation, <- list_fmap_compose.
  apply sum_occurrences_eq; [apply unique_NoDup|].
  intros x. by rewrite elem_of_unique.
Qed.

Lemma value_counts_values s v :
  v ∈ (value_counts s).*1 ↔ v ≠ NA ∧ v ∈ s.
Proof.
  rewrite value_counts_Permutation, <- list_fmap_compose. simpl.
  rewrite list_fmap_id, elem_of_unique, list_elem_of_filter.
  unfold notna. destruct v; simpl; split; try tauto; intros [? ?]; by split.
Qed.

Lemma length_value_counts s :
  length (value_counts s) = length (unique (filter (λ x, notna x) s)).
Proof. by rewrite value_counts_Permutation, length_fmap. Qed.

(** X10: when [n] is at least the number of distinct values, nothing is cut
    off: the table lists every non-missing value of the column, and its
    counts add up to the number of rows whose cell is not missing. *)
Theorem top_n_frequency_complete (df : DataFrame) (column : string) (n : nat) :
  column ∈ columns df →
  length (unique (filter (λ x, notna x)
                    (cell_at (columns df) column <$> rows df))) ≤ n →
  ∃ out, top_n_frequency df column n = Ok out
       ∧ (∀ v, v ∈ out.*1
               ↔ v ≠ NA ∧ v ∈ cell_at (columns df) column <$> rows df)
       ∧ sum_list out.*2
         = length (filter (λ r, notna (cell_at (columns df) column r))
                     (rows df)).
Proof.
  intros Hc Hn. eexists. split; [apply top_n_frequency_Ok|].
  rewrite (proj2 (has_column_spec _ _) Hc).
  rewrite take_ge by by rewrite length_value_counts.
  split; [apply value_counts_values|].
  rewrite value_counts_total.
  rewrite <- (fmap_filter_comm (cell_at (columns df) column)
                (λ x, Is_true (notna x)) (rows df)).
  by rewrite length_fmap.
Qed.

Lemma top_n_frequency_complete_witness :
  ∃ out, top_n_frequency letters_example "city" 3 = Ok out
       ∧ (∀ v, v ∈ out.*1
               ↔ v ≠ NA
                 ∧ v ∈ cell_at (columns letters_example) "city"
                         <$> rows letters_example)
       ∧ sum_list out.*2
         = length (filter
                     (λ r, notna (cell_at (columns letters_example) "city" r))
                     (rows letters_example)).
Proof.
  apply (top_n_frequency_complete letters_example "city" 3).
  - simpl. left.
  - vm_compute. lia.
Defined.

(** X11: the values listed are the most frequent ones: a value of the
    column that is left out occurs no more often than any value listed. *)
Theorem top_n_frequency_most_frequent (df : DataFrame) (column : string)
    (n : nat) (out : list (cell * nat)) (w v : cell) (k : nat) :
  top_n_frequency df column n = Ok out →
  (w, k) ∈ out →
  v ∈ cell_at (columns df) column <$> rows df →
  v ≠ NA →
  v ∉ out.*1 →
  occurrences v (cell_at (columns df) column <$> rows df) ≤ k.
Proof.
  rewrite top_n_frequency_Ok. intros [= <-] Hw Hv Hna Hout.
  destruct (has_column df column); [|by apply elem_of_nil in Hw].
  set (s := cell_at (columns df) column <$> rows df) in *.
  pose proof (value_counts_sorted s) as Hs.
  rewrite <- (take_drop n (value_counts s)) in Hs.
  apply StronglySorted_app in Hs as (Hcross & _ & _).
  assert (v ∈ (value_counts s).*1) as Hin by by apply value_counts_values.
  apply list_elem_of_fmap in Hin as ([v' c] & Heq & Hin). simpl in Heq.
  subst v'.
  pose proof (value_counts_elem_of _ _ Hin) as (_ & _ & Hc & _).
  simpl in Hc. subst c.
  rewrite <- (take_drop n (value_counts s)) in Hin.
  apply elem_of_app in Hin as [Hin|Hin].
  - destruct Hout. apply list_elem_of_fmap. by eexists (_, _).
  - by destruct (Hcross _ _ Hw Hin) as [? _].
Qed.

Lemma top_n_frequency_most_frequent_witness :
  occurrences (Str "B")
    (cell_at (columns letters_example) "city" <$> rows letters_example) ≤ 2.
Proof.
  apply (top_n_frequency_most_frequent letters_example "city" 2
           [(Str "C", 3); (Str "A", 2)] (Str "A") (Str "B") 2).
  - reflexivity.
  - right. left.
  - simpl. right. right. left.
  - discriminate.
  - simpl. intros Hin. apply elem_of_cons in Hin as [?|Hin]; [done|].
    apply elem_of_cons in Hin as [?|Hin]; [done|]. by apply elem_of_nil in Hin.
Defined.

(** ** The run as a whole *)

Lemma sidebar_filter_cases choose df :
  match sidebar_filter choose df with
  | Ok d => columns d = columns df ∧ rows d `sublist_of` rows df
  | Raise e => e = TypeError "'<' not supported between 'str' and 'float'"
  end.
Proof.
  unfold sidebar_filter, city_options, getitem.
  destruct (has_column df "city"); [|done]. simpl.
  unfold py_sorted. destruct (_ || _); [|done]. simpl.
  destruct (choose _); [done|]. simpl. split; [done|apply sublist_filter].
Qed.

Lemma dashboard_Ok_inv choose loaded D :
  dashboard choose loaded = Ok D →
  ∃ d df, clean loaded = Ok d
        ∧ sidebar_filter choose d = Ok df
        ∧ compute_metrics df = Ok (metrics D)
        ∧ top_cities df = Ok (fig1 D).
Proof.
  unfold dashboard.
  destruct (clean loaded) as [d|]; [|done]. cbn [mbind result_bind].
  destruct (sidebar_filter choose d) as [df|] eqn:Hside; [|done].
  cbn [mbind result_bind].
  destruct (compute_metrics df) as [m|] eqn:Hm; [|done].
  cbn [mbind result_bind].
  destruct (top_cities df) as [f1|] eqn:Hf1; [|done].
  cbn [mbind result_bind].
  destruct (top_cuisines df); [|done]. cbn [mbind result_bind].
  destruct (rating_histogram df); [|done]. cbn [mbind result_bind].
  destruct (cost_vs_rating df); [|done]. cbn [mbind result_bind].
  destruct (votes_vs_rating df); [|done]. cbn [mbind result_bind].
  destruct (price_vs_rating df); [|done]. cbn [mbind result_bind].
  destruct (geo_points df); [|done]. cbn [mbind result_bind].
  intros [= <-]. by exists d, df.
Qed.

(** X16: on a page that renders, the city bars never add up to more than
    the restaurant count shown beside them, and when the table has the city
    column and fewer than ten bars are drawn they add up to exactly that
    count. *)
Theorem dashboard_city_bars (choose : list cell → list cell)
    (loaded : DataFrame) (D : Dashboard) :
  dashboard choose loaded = Ok D →
  sum_list (fig1 D).*2 ≤ total_restaurants (metrics D)
  ∧ ("city" ∈ columns loaded → length (fig1 D) < 10 →
     sum_list (fig1 D).*2 = total_restaurants (metrics D)).
Proof.
  intros (d & df & Hclean & Hside & Hm & Hf1)%dashboard_Ok_inv.
  rewrite (compute_metrics_row_count _ _ Hm).
  unfold top_cities in Hf1. rewrite top_n_frequency_Ok in Hf1.
  injection Hf1 as Hf1.
  pose proof (sidebar_filter_cases choose d) as Hcases.
  rewrite Hside in Hcases. destruct Hcases as [Hcols Hsub].
  set (s := cell_at (columns df) "city" <$> rows df) in *.
  assert (length s = len df) as Hlen by apply length_fmap.
  split.
  - rewrite <- Hf1. destruct (has_column df "city"); [|simpl; lia].
    rewrite fmap_take. etrans; [apply sum_list_take_le|].
    etrans; [apply value_counts_sum|]. lia.
  - intros Hc Hbars. rewrite <- Hf1 in *.
    rewrite (proj2 (has_column_spec df "city")) in *
      by (by rewrite Hcols, (clean_columns _ _ Hclean)).
    rewrite length_take in Hbars.
    rewrite take_ge by lia. rewrite value_counts_total, <- Hlen.
    f_equal. apply filter_all, Forall_fmap, Forall_forall. intros r Hr.
    pose proof (cleaned_city_notna _ _ Hclean Hc) as Hna.
    rewrite Forall_forall in Hna.
    specialize (Hna r (elem_of_sublist _ _ _ Hr Hsub)).
    rewrite Hcols. simpl.
    by destruct (cell_at (columns d) "city" r).
Qed.

Lemma dashboard_city_bars_witness :
  ∃ D, dashboard default_cities scenario_example = Ok D
     ∧ sum_list (fig1 D).*2 ≤ total_restaurants (metrics D)
     ∧ ("city" ∈ columns scenario_example → length (fig1 D) < 10 →
        sum_list (fig1 D).*2 = total_restaurants (metrics D)).
Proof.
  eexists. split; [reflexivity|].
  apply (dashboard_city_bars default_cities scenario_example).
  reflexivity.
Defined.

(** ** The stages on the object store *)

Lemma fresh_lookup (σ : gmap loc DataFrame) : σ !! fresh (dom σ) = None.
Proof. apply not_elem_of_dom, is_fresh. Qed.

(** The filter on the store does what [sidebar_filter] does on the table
    [df] names, into an object of its own. *)
Lemma run_filter_sidebar choose st d :
  store st !! var_df st = Some d →
  match sidebar_filter choose d with
  | Ok df =>
      ∃ st', run_filter choose st = Ok st'
           ∧ store st ⊆ store st'
           ∧ store st' !! var_df st = Some d
           ∧ store st' !! var_df st' = Some df
           ∧ (var_df st' = var_df st ∨ store st !! var_df st' = None)
  | Raise e => run_filter choose st = Raise e
  end.
Proof.
  intros Hd. unfold run_filter, sidebar_filter.
  rewrite (deref_Ok _ _ _ Hd). cbn [mbind result_bind].
  destruct (has_column d "city"); [|by exists st; split_and!; [done..|left]].
  destruct (city_options d) as [cities|e]; cbn [mbind result_bind]; [|done].
  destruct (choose cities) as [|c cs];
    [by exists st; split_and!; [done..|left]|].
  pose proof (fresh_lookup (store st)) as Hfresh.
  eexists. split; [reflexivity|]. simpl. split_and!.
  - by apply insert_subseteq.
  - rewrite lookup_insert_ne; [done|]. intros Heq. rewrite Heq in Hfresh.
    by rewrite Hd in Hfresh.
  - by rewrite lookup_insert_eq.
  - by right.
Qed.

(** A frequency table is a new object; setting its labels touches that
    object alone. *)
Lemma run_top_n_spec column label st d :
  store st !! var_df st = Some d →
  ∃ r st', run_top_n column label st = Ok (r, st')
         ∧ store st ⊆ store st'
         ∧ var_df st' = var_df st
         ∧ match r with
           | Some l =>
               store st !! l = None
               ∧ ∃ out, top_n_frequency d column 10 = Ok out
                      ∧ store st' !! l
                        = Some (mkDataFrame [label; "count"]
                                  (rows (counts_frame column out)))
           | None => st' = st
           end.
Proof.
  intros Hd. unfold run_top_n, top_n_frequency, getitem.
  rewrite (deref_Ok _ _ _ Hd). cbn [mbind result_bind].
  destruct (has_column d column); [|by exists None, st].
  cbn [mbind result_bind]. unfold alloc, set_columns. cbn [fst snd].
  rewrite (deref_Ok _ _ _ (lookup_insert_eq _ _ _)).
  cbn [mbind result_bind]. simpl.
  pose proof (fresh_lookup (store st)) as Hfresh.
  eexists (Some _), _. split; [reflexivity|]. simpl. split_and!.
  - rewrite insert_insert_eq. by apply insert_subseteq.
  - done.
  - done.
  - eexists. split; [done|]. by rewrite lookup_insert_eq.
Qed.

Lemma run_price_vs_rating_spec st d :
  store st !! var_df st = Some d →
  match grouped_mean d "price_range" "aggregate_rating" with
  | Ok out =>
      ∃ r st', run_price_vs_rating st = Ok (r, st')
             ∧ store st ⊆ store st'
             ∧ var_df st' = var_df st
             ∧ match r with
               | Some l =>
                   store st !! l = None
                   ∧ store st' !! l
                     = Some (means_frame "price_range" "aggregate_rating" out)
               | None => st' = st
               end
  | Raise e => run_price_vs_rating st = Raise e
  end.
Proof.
  intros Hd. unfold run_price_vs_rating, grouped_mean.
  rewrite (deref_Ok _ _ _ Hd). cbn [mbind result_bind].
  destruct (has_column d "price_range"); [|by exists None, st].
  destruct (groupby_mean d "price_range" "aggregate_rating") as [out|e];
    cbn [mbind result_bind]; [|done].
  unfold alloc. cbn [fst snd].
  pose proof (fresh_lookup (store st)) as Hfresh.
  eexists (Some _), _. split; [reflexivity|]. simpl. split_and!.
  - by apply insert_subseteq.
  - done.
  - done.
  - by rewrite lookup_insert_eq.
Qed.

Lemma sidebar_filter_TypeError choose d e :
  sidebar_filter choose d = Raise e → ∃ msg, e = TypeError msg.
Proof.
  intros He. pose proof (sidebar_filter_cases choose d) as Hc.
  rewrite He in Hc. by eexists.
Qed.

(** C3 (as amended): on a table with distinct labels, the cleaning block
    writes the cleaned table into the very object that was loaded, and [df]
    still names that object.  Every later stage leaves the objects that
    exist as they are, the table [df] named before it among them: the city
    filter hands back its input or a new object (or ends the run with the
    [TypeError] of a mixed city column), the frequency tables of cities and
    cuisines and the table of grouped means are new objects, and setting
    the labels of a frequency table changes that new object alone; the
    metrics only read the table. *)
Theorem stage_effects (st : PyState) (d : DataFrame)
    (choose : list cell → list cell) :
  store st !! var_df st = Some d →
  NoDup (columns d) →
  (∃ d', clean d = Ok d'
       ∧ run_clean st
         = Ok (mkPyState (<[var_df st := d']> (store st)) (var_df st)))
  ∧ match sidebar_filter choose d with
    | Ok df =>
        ∃ st', run_filter choose st = Ok st'
             ∧ store st ⊆ store st'
             ∧ store st' !! var_df st = Some d
             ∧ store st' !! var_df st' = Some df
             ∧ (var_df st' = var_df st ∨ store st !! var_df st' = None)
    | Raise e => run_filter choose st = Raise e ∧ ∃ msg, e = TypeError msg
    end
  ∧ (∃ r st', run_top_cities st = Ok (r, st')
            ∧ store st ⊆ store st'
            ∧ store st' !! var_df st' = Some d
            ∧ match r with
              | Some l =>
                  store st !! l = None
                  ∧ ∃ out, top_cities d = Ok out
                         ∧ store st' !! l
                           = Some (mkDataFrame ["city"; "count"]
                                     (rows (counts_frame "city" out)))
              | None => st' = st
              end)
  ∧ (∃ r st', run_top_cuisines st = Ok (r, st')
            ∧ store st ⊆ store st'
            ∧ store st' !! var_df st' = Some d
            ∧ match r with
              | Some l =>
                  store st !! l = None
                  ∧ ∃ out, top_cuisines d = Ok out
                         ∧ store st' !! l
                           = Some (mkDataFrame ["cuisine"; "count"]
                                     (rows (counts_frame "cuisines" out)))
              | None => st' = st
              end)
  ∧ match price_vs_rating d with
    | Ok out =>
        ∃ r st', run_price_vs_rating st = Ok (r, st')
               ∧ store st ⊆ store st'
               ∧ store st' !! var_df st' = Some d
               ∧ match r with
                 | Some l =>
                     store st !! l = None
                     ∧ store st' !! l
                       = Some (means_frame "price_range" "aggregate_rating"
                                 out)
                 | None => st' = st
                 end
    | Raise e => run_price_vs_rating st = Raise e
    end
  ∧ run_metrics st = compute_metrics d.
Proof.
  intros Hd _.
  assert (∀ column label,
    ∃ r st', run_top_n column label st = Ok (r, st')
           ∧ store st ⊆ store st'
           ∧ store st' !! var_df st' = Some d
           ∧ match r with
             | Some l =>
                 store st !! l = None
                 ∧ ∃ out, top_n_frequency d column 10 = Ok out
                        ∧ store st' !! l
                          = Some (mkDataFrame [label; "count"]
                                    (rows (counts_frame column out)))
             | None => st' = st
             end) as Htop.
  { intros column label.
    destruct (run_top_n_spec column label st d Hd)
      as (r & st' & Hrun & Hsub & Hvar & Hr).
    exists r, st'. split_and!; [done..| |done].
    rewrite Hvar. by apply (lookup_weaken _ _ _ _ Hd Hsub). }
  split_and!.
  - eexists. split; [apply clean_by_Ok|]. by apply run_clean_inplace.
  - pose proof (run_filter_sidebar choose st d Hd) as Hf.
    destruct (sidebar_filter choose d) as [df|e] eqn:Hside; [done|].
    split; [done|]. by eapply sidebar_filter_TypeError.
  - apply Htop.
  - apply Htop.
  - pose proof (run_price_vs_rating_spec st d Hd) as Hp.
    unfold price_vs_rating.
    destruct (grouped_mean d "price_range" "aggregate_rating"); [|done].
    destruct Hp as (r & st' & Hrun & Hsub & Hvar & Hr).
    exists r, st'. split_and!; [done..| |done].
    rewrite Hvar. by apply (lookup_weaken _ _ _ _ Hd Hsub).
  - unfold run_metrics. by rewrite (deref_Ok _ _ _ Hd).
Qed.

Lemma stage_effects_witness :
  (∃ d', clean duplicate_example = Ok d'
       ∧ run_clean (run_load duplicate_example)
         = Ok (mkPyState
                 (<[var_df (run_load duplicate_example) := d']>
                    (store (run_load duplicate_example)))
                 (var_df (run_load duplicate_example))))
  ∧ match sidebar_filter default_cities duplicate_example with
    | Ok df =>
        ∃ st', run_filter default_cities (run_load duplicate_example) = Ok st'
             ∧ store (run_load duplicate_example) ⊆ store st'
             ∧ store st' !! var_df (run_load duplicate_example)
               = Some duplicate_example
             ∧ store st' !! var_df st' = Some df
             ∧ (var_df st' = var_df (run_load duplicate_example)
                ∨ store (run_load duplicate_example) !! var_df st' = None)
    | Raise e =>
        run_filter default_cities (run_load duplicate_example) = Raise e
        ∧ ∃ msg, e = TypeError msg
    end
  ∧ (∃ r st', run_top_cities (run_load duplicate_example) = Ok (r, st')
            ∧ store (run_load duplicate_example) ⊆ store st'
            ∧ store st' !! var_df st' = Some duplicate_example
            ∧ match r with
              | Some l =>
                  store (run_load duplicate_example) !! l = None
                  ∧ ∃ out, top_cities duplicate_example = Ok out
                         ∧ store st' !! l
                           = Some (mkDataFrame ["city"; "count"]
                                     (rows (counts_frame "city" out)))
              | None => st' = run_load duplicate_example
              end)
  ∧ (∃ r st', run_top_cuisines (run_load duplicate_example) = Ok (r, st')
            ∧ store (run_load duplicate_example) ⊆ store st'
            ∧ store st' !! var_df st' = Some duplicate_example
            ∧ match r with
              | Some l =>
                  store (run_load duplicate_example) !! l = None
                  ∧ ∃ out, top_cuisines duplicate_example = Ok out
                         ∧ store st' !! l
                           = Some (mkDataFrame ["cuisine"; "count"]
                                     (rows (counts_frame "cuisines" out)))
              | None => st' = run_load duplicate_example
              end)
  ∧ match price_vs_rating duplicate_example with
    | Ok out =>
        ∃ r st', run_price_vs_rating (run_load duplicate_example)
                 = Ok (r, st')
               ∧ store (run_load duplicate_example) ⊆ store st'
               ∧ store st' !! var_df st' = Some duplicate_example
               ∧ match r with
                 | Some l =>
                     store (run_load duplicate_example) !! l = None
                     ∧ store st' !! l
                       = Some (means_frame "price_range" "aggregate_rating"
                                 out)
                 | None => st' = run_load duplicate_example
                 end
    | Raise e => run_price_vs_rating (run_load duplicate_example) = Raise e
    end
  ∧ run_metrics (run_load duplicate_example)
    = compute_metrics duplicate_example.
Proof.
  apply (stage_effects (run_load duplicate_example) duplicate_example
           default_cities).
  - reflexivity.
  - by apply (bool_decide_unpack _).
Defined.

(** The city frequency table of [city_example] lands in a new object with
    the labels of line 64, and the table [df] names is as it was. *)
Example run_top_cities_city_example :
  ∃ l st', run_top_cities (run_load city_example) = Ok (Some l, st')
         ∧ store st' !! l
           = Some (mkDataFrame ["city"; "count"]
                     [[Str "A"; num 2]; [Str "B"; num 1]])
         ∧ store st' !! var_df st' = Some city_example.
Proof. eexists _, _. split_and!; reflexivity. Qed.

(** ** The widget and the run, on tables with distinct labels *)

(** X7: on a table with distinct labels that has the city column, the
    options offered are the distinct non-missing cities in strictly rising
    order; no options come out only when the column holds both numbers and
    text, and then the sort raises [TypeError]. *)
Theorem city_options_spec (df : DataFrame) :
  NoDup (columns df) →
  "city" ∈ columns df →
  match city_options df with
  | Ok cities =>
      StronglySorted cell_lt cities
      ∧ ∀ v, v ∈ cities
             ↔ v ≠ NA ∧ v ∈ cell_at (columns df) "city" <$> rows df
  | Raise e =>
      (∃ msg, e = TypeError msg)
      ∧ ∃ q t, Num q ∈ cell_at (columns df) "city" <$> rows df
             ∧ Str t ∈ cell_at (columns df) "city" <$> rows df
  end.
Proof.
  intros _ Hc. unfold city_options. rewrite getitem_present by done. simpl.
  pose proof (py_sorted_spec _
    (unique_notna (cell_at (columns df) "city" <$> rows df))) as Hspec.
  destruct (py_sorted _) as [cities|e].
  - rewrite Hspec. split; [apply group_keys_sorted|].
    intros v. apply elem_of_group_keys.
  - destruct Hspec as (-> & q & t & Hq & Ht). split; [by eexists|].
    rewrite !elem_of_unique in Hq, Ht.
    apply list_elem_of_filter in Hq as [_ Hq].
    apply list_elem_of_filter in Ht as [_ Ht]. by exists q, t.
Qed.

Lemma city_options_spec_witness :
  match city_options city_example with
  | Ok cities =>
      StronglySorted cell_lt cities
      ∧ ∀ v, v ∈ cities
             ↔ v ≠ NA
               ∧ v ∈ cell_at (columns city_example) "city"
                       <$> rows city_example
  | Raise e =>
      (∃ msg, e = TypeError msg)
      ∧ ∃ q t, Num q ∈ cell_at (columns city_example) "city"
                         <$> rows city_example
             ∧ Str t ∈ cell_at (columns city_example) "city"
                         <$> rows city_example
  end.
Proof.
  apply (city_options_spec city_example).
  - by apply (bool_decide_unpack _).
  - simpl. left.
Defined.



(** X14: lines 21-44 on the object store do what cleaning and the sidebar
    filter do on the table.  When they end with a table, the object that was
    loaded holds the cleaned table and [df] names an object holding the
    filtered one; when the sort of the options raises, so does the run. *)
Theorem run_pipeline_spec (choose : list cell → list cell)
    (loaded : DataFrame) :
  NoDup (columns loaded) →
  ∃ d, clean loaded = Ok d
     ∧ match sidebar_filter choose d with
       | Ok df =>
           ∃ st, run_pipeline choose loaded = Ok st
               ∧ store st !! var_df (run_load loaded) = Some d
               ∧ store st !! var_df st = Some df
       | Raise e =>
           run_pipeline choose loaded = Raise e ∧ ∃ msg, e = TypeError msg
       end.
Proof.
  intros _.
  assert (store (run_load loaded) !! var_df (run_load loaded) = Some loaded)
    as Hload by apply lookup_singleton_eq.
  pose proof (run_clean_inplace _ _ Hload) as Hclean.
  set (d := mkDataFrame (columns loaded)
              (cleaned_rows key_column required_columns loaded)) in *.
  set (st1 := mkPyState (<[var_df (run_load loaded) := d]>
                           (store (run_load loaded)))
                (var_df (run_load loaded))) in *.
  assert (store st1 !! var_df st1 = Some d) as Hd by apply lookup_insert_eq.
  exists d. split; [apply clean_by_Ok|].
  pose proof (run_filter_sidebar choose st1 d Hd) as Hf.
  unfold run_pipeline. rewrite Hclean. cbn [mbind result_bind].
  destruct (sidebar_filter choose d) as [df|e] eqn:Hside.
  - destruct Hf as (st & Hrun & _ & Hkeep & Hdf & _). by exists st.
  - split; [done|]. by eapply sidebar_filter_TypeError.
Qed.

Lemma run_pipeline_spec_witness :
  ∃ d, clean duplicate_example = Ok d
     ∧ match sidebar_filter default_cities d with
       | Ok df =>
           ∃ st, run_pipeline default_cities duplicate_example = Ok st
               ∧ store st !! var_df (run_load duplicate_example) = Some d
               ∧ store st !! var_df st = Some df
       | Raise e =>
           run_pipeline default_cities duplicate_example = Raise e
           ∧ ∃ msg, e = TypeError msg
       end.
Proof.
  apply (run_pipeline_spec default_cities duplicate_example).
  by apply (bool_decide_unpack _).
Defined.

(** X15: a table with distinct labels and no rating column never gets as
    far as a chart: the run ends in the [KeyError] of the rating metric
    whatever is selected, unless sorting a mixed city column has already
    ended it with a [TypeError]. *)
Theorem dashboard_without_rating (choose : list cell → list cell)
    (loaded : DataFrame) :
  NoDup (columns loaded) →
  "aggregate_rating" ∉ columns loaded →
  dashboard choose loaded = Raise (KeyError "aggregate_rating")
  ∨ ∃ msg, dashboard choose loaded = Raise (TypeError msg).
Proof.
  intros _ Hc. unfold dashboard, clean. rewrite clean_by_Ok.
  cbn [mbind result_bind].
  pose proof (sidebar_filter_cases choose
    (mkDataFrame (columns loaded)
       (cleaned_rows key_column required_columns loaded))) as Hside.
  destruct (sidebar_filter choose _) as [df|e]; cbn [mbind result_bind].
  - destruct Hside as [Hcols _]. simpl in Hcols. left.
    rewrite compute_metrics_rating_absent; [done|]. by rewrite Hcols.
  - right. rewrite Hside. by eexists.
Qed.

Lemma dashboard_without_rating_witness :
  dashboard default_cities no_rating_example
  = Raise (KeyError "aggregate_rating")
  ∨ ∃ msg, dashboard default_cities no_rating_example
           = Raise (TypeError msg).
Proof.
  apply (dashboard_without_rating default_cities no_rating_example).
  - by apply (bool_decide_unpack _).
  - simpl. intros Hc.
    apply elem_of_cons in Hc as [?|Hc]; [done|].
    apply elem_of_cons in Hc as [?|Hc]; [done|].
    apply elem_of_cons in Hc as [?|Hc]; [done|]. by apply elem_of_nil in Hc.
Defined.
